(** * The prompt controller: Gemini completion client and turn handler

    A shallow embedding of [src/controller/promt.controller.js]:
    [callGeminiAPI], the retry loop around the outbound completion request,
    and [sendPromt], the request handler that stores the user turn, asks for
    a completion, stores the assistant turn and answers the caller.

    JavaScript values are a small tagged union, exceptions and the effects on
    the outside world (network, timers, random numbers, the message store, the
    HTTP response) go through a state-and-exception monad over an explicit
    [world], and the outside world's answers come from an [environment]. *)

From Stdlib Require Import String Ascii ZArith QArith List Bool Arith Lia
  DecimalString.
From Stdlib Require Import Lqa SpecFloat.
Import ListNotations.
Close Scope Q_scope.
Open Scope string_scope.
Open Scope nat_scope.
Set Warnings "-register-all".

(** ** JavaScript values *)

(** The values the controller handles: what [JSON.parse] and the body parser
    produce, plus [undefined] for absent properties.  Numbers are the
    integral ones; the controller only tests a number for truthiness and
    passes it on.  Strings are sequences of characters with codes below 256.
    An object is its list of own properties in insertion order. *)
Inductive value : Type :=
| VUndefined
| VNull
| VBool (b : bool)
| VNum (n : Z)
| VStr (s : string)
| VArr (items : list value)
| VObj (fields : list (string * value)).

(** [ToBoolean]: what [!x] and [if (x)] look at. *)
Definition truthy (v : value) : bool :=
  match v with
  | VUndefined | VNull => false
  | VBool b => b
  | VNum n => negb (n =? 0)%Z
  | VStr s => negb (s =? "")%string
  | VArr _ | VObj _ => true
  end.

Definition is_nullish (v : value) : bool :=
  match v with
  | VUndefined | VNull => true
  | _ => false
  end.

Fixpoint lookup (key : string) (fields : list (string * value)) : value :=
  match fields with
  | [] => VUndefined
  | (k, v) :: rest => if (k =? key)%string then v else lookup key rest
  end.

(** [v.name] for the property names the controller reads ([candidates],
    [content], [parts], [text]): only an object can own them, no prototype
    defines them.  The caller deals with a nullish [v]. *)
Definition get_prop (name : string) (v : value) : value :=
  match v with
  | VObj fields => lookup name fields
  | _ => VUndefined
  end.

(** [v[0]]: the first element of an array, the first character of a string,
    the property ["0"] of an object. *)
Definition get_index0 (v : value) : value :=
  match v with
  | VArr items => hd VUndefined items
  | VStr (String c _) => VStr (String c "")
  | VObj fields => lookup "0" fields
  | _ => VUndefined
  end.

(** Optional chaining [v?.p]: [undefined] when [v] is [null] or [undefined]. *)
Definition opt_chain (access : value -> value) (v : value) : value :=
  if is_nullish v then VUndefined else access v.

(** ** Strings *)

(** Template-literal rendering of an integer ([${response.status}]). *)
Definition show_Z (n : Z) : string := NilZero.string_of_int (Z.to_int n).
Definition show_nat (n : nat) : string := show_Z (Z.of_nat n).

(** [String.prototype.includes]. *)
Fixpoint includes (s sub : string) : bool :=
  prefix sub s ||
  match s with
  | "" => false
  | String _ rest => includes rest sub
  end.

(** White space and line terminators below code 256: TAB, LF, VT, FF, CR,
    SP and NBSP. *)
Definition is_white_space (c : ascii) : bool :=
  let n := nat_of_ascii c in
  ((9 <=? n) && (n <=? 13)) || (n =? 32) || (n =? 160).

Fixpoint trim_start (s : string) : string :=
  match s with
  | "" => ""
  | String c rest => if is_white_space c then trim_start rest else s
  end.

Fixpoint trim_end (s : string) : string :=
  match s with
  | "" => ""
  | String c rest =>
      match trim_end rest with
      | "" => if is_white_space c then "" else String c ""
      | kept => String c kept
      end
  end.

(** [String.prototype.trim]. *)
Definition trim (s : string) : string := trim_end (trim_start s).

Fixpoint join (sep : string) (parts : list string) : string :=
  match parts with
  | [] => ""
  | [p] => p
  | p :: rest => p ++ sep ++ join sep rest
  end.

Definition dquote : string := String (ascii_of_nat 34) "".

Definition hex_digit (n : nat) : ascii :=
  if n <? 10 then ascii_of_nat (48 + n) else ascii_of_nat (87 + n).

(** How [JSON.stringify] writes one character inside a string literal. *)
Definition escape_char (c : ascii) : string :=
  let n := nat_of_ascii c in
  if n =? 34 then "\" ++ dquote
  else if n =? 92 then "\\"
  else if n =? 8 then "\b"
  else if n =? 9 then "\t"
  else if n =? 10 then "\n"
  else if n =? 12 then "\f"
  else if n =? 13 then "\r"
  else if n <? 32 then
    "\u00" ++ String (hex_digit (n / 16)) (String (hex_digit (n mod 16)) "")
  else String c "".

Fixpoint escape (s : string) : string :=
  match s with
  | "" => ""
  | String c rest => escape_char c ++ escape rest
  end.

Definition quote (s : string) : string := dquote ++ escape s ++ dquote.

Definition is_undefined (v : value) : bool :=
  match v with
  | VUndefined => true
  | _ => false
  end.

(** [JSON.stringify] as a template literal prints it: compact, [undefined]
    array elements as [null], [undefined] properties left out.  Properties
    are printed in list order and integers in full (the engine lists
    integer-like keys first and prints numbers from 1e21 on in exponent
    form). *)
Fixpoint stringify (v : value) : string :=
  match v with
  | VUndefined => "undefined"
  | VNull => "null"
  | VBool true => "true"
  | VBool false => "false"
  | VNum n => show_Z n
  | VStr s => quote s
  | VArr items =>
      "[" ++ join ","
        (map (fun x => if is_undefined x then "null" else stringify x) items)
      ++ "]"
  | VObj fields =>
      "{" ++ join ","
        ((fix properties (fs : list (string * value)) : list string :=
            match fs with
            | [] => []
            | (k, x) :: rest =>
                if is_undefined x then properties rest
                else (quote k ++ ":" ++ stringify x) :: properties rest
            end) fields)
      ++ "}"
  end.

(** ** Exceptions *)

(** A thrown [Error] object: its class name and its [message]. *)
Record js_error : Type := mkError { e_name : string; e_message : string }.

Definition Error (msg : string) : js_error := mkError "Error" msg.
Definition TypeError (msg : string) : js_error := mkError "TypeError" msg.

(** How a computation ends: with a value, or by throwing. *)
Inductive outcome (A : Type) : Type :=
| Ok (a : A)
| Thrown (e : js_error).
Arguments Ok {A} a.
Arguments Thrown {A} e.

(** ** The outside world *)

(** A [Response] of [fetch]: its status and what reading the body gives,
    as text and as JSON (either read can reject). *)
Record response : Type := mkResponse {
  status : Z;
  body_text : outcome string;
  body_json : outcome value
}.

(** [response.ok]: a status in the range 200-299. *)
Definition ok (r : response) : bool :=
  ((200 <=? status r) && (status r <=? 299))%Z.

(** What one [fetch] call comes to: the promise rejects (transport or
    network failure) or resolves to a response. *)
Inductive fetch_outcome : Type :=
| NetworkFailure (e : js_error)
| Responded (r : response).

Inductive role : Type := user | assistant.

(** Modelled from the spec: the Message of the message store
    ([model/promt.model.js] is not among the sources): owning user
    identifier, role and content.  The creation timestamp the store assigns
    is never read by the controller and is left out. *)
Record Message : Type := mkMessage {
  m_userId : value;
  m_role : role;
  m_content : value
}.

(** What the controller does to the outside world, in order. *)
Inductive event : Type :=
| EvFetch (k : nat) (payload : value)   (* the k-th request to the endpoint *)
| EvSleep (ms : Q)                      (* a timer of [ms] ms awaited *)
| EvCreate (m : Message)                (* a [Promt.create] call *)
| EvConsoleError (e : js_error)
| EvRespond (code : Z) (body : value).  (* [res.status(code).json(body)] *)

Record world : Type := mkWorld {
  w_fetches : nat;          (* [fetch] calls so far *)
  w_draws : nat;            (* [Math.random] calls so far *)
  w_creates : nat;          (* [Promt.create] calls so far *)
  w_store : list Message;   (* the persisted Messages, oldest first *)
  w_trace : list event      (* the events so far, oldest first *)
}.

(** The answers of the outside world: what the k-th [fetch] comes to, what
    the k-th [Math.random] returns, and whether the k-th [Promt.create] is
    rejected. *)
Record environment : Type := mkEnv {
  endpoint : nat -> fetch_outcome;
  random : nat -> Q;
  database : nat -> option js_error
}.

Definition start (store : list Message) : world := mkWorld 0 0 0 store [].

(** ** The monad of effects *)

Definition M (A : Type) : Type := world -> outcome A * world.

Definition ret {A} (a : A) : M A := fun w => (Ok a, w).

Definition throw {A} (e : js_error) : M A := fun w => (Thrown e, w).

Definition bind {A B} (c : M A) (k : A -> M B) : M B :=
  fun w =>
    match c w with
    | (Ok a, w') => k a w'
    | (Thrown e, w') => (Thrown e, w')
    end.

(** [try { c } catch (error) { handler error }]. *)
Definition try_catch {A} (c : M A) (handler : js_error -> M A) : M A :=
  fun w =>
    match c w with
    | (Ok a, w') => (Ok a, w')
    | (Thrown e, w') => handler e w'
    end.

Definition lift {A} (o : outcome A) : M A := fun w => (o, w).

Definition log (ev : event) : M unit :=
  fun w =>
    (Ok tt, mkWorld (w_fetches w) (w_draws w) (w_creates w) (w_store w)
              (w_trace w ++ [ev])).

Declare Scope monad_scope.
Delimit Scope monad_scope with monad.
Notation "x <- c ;; k" := (bind c (fun x => k))
  (at level 100, c at next level, right associativity) : monad_scope.
Notation "c ;; k" := (bind c (fun _ => k))
  (at level 100, right associativity) : monad_scope.
Open Scope monad_scope.

(** ** The completion client *)

Definition MAX_RETRIES : nat := 5.

(** A retryable status: rate limit or server error. *)
Definition retryable (s : Z) : bool :=
  ((s =? 429) || ((500 <=? s) && (s <? 600)))%Z.

(** [Math.pow(2, i) * 1000 + Math.random() * 500], in exact arithmetic:
    the engine's double differs from it by the rounding of the sum, and
    lies between [2^i * 1000] and [2^i * 1000 + 500], both included. *)
Definition backoff_delay (i : nat) (rnd : Q) : Q :=
  (inject_Z (2 ^ Z.of_nat i * 1000) + rnd * 500)%Q.

Definition retries_exhausted_message (s : Z) (errorText : string) : string :=
  "Gemini API call failed after " ++ show_nat MAX_RETRIES
  ++ " attempts. Status: " ++ show_Z s ++ ". Body: " ++ errorText.

Definition client_error_message (s : Z) (errorBody : value) : string :=
  "Gemini API Client Error: " ++ show_Z s ++ " - " ++ stringify errorBody.

Definition content_missing_message : string :=
  "Gemini API response successful but generated content text is missing"
  ++ " or was blocked.".

Definition fallback_message : string :=
  "Failed to get response from Gemini API.".

(** [result.candidates?.[0]?.content?.parts?.[0]?.text]; the first access
    is not optional and throws on [null]. *)
Definition generated_text (result : value) : outcome value :=
  if is_nullish result then
    Thrown (TypeError
      ("Cannot read properties of " ++ stringify result
       ++ " (reading 'candidates')"))
  else
    Ok (opt_chain (get_prop "text")
         (opt_chain get_index0
           (opt_chain (get_prop "parts")
             (opt_chain (get_prop "content")
               (opt_chain get_index0
                 (get_prop "candidates" result)))))).

(** How the body of the [try] block leaves: by [continue] or by [return]. *)
Inductive completion : Type :=
| Continue
| Return (v : value).

(** How the [for] loop leaves: by a [return] inside it, or by running past
    its last iteration. *)
Inductive loop_exit : Type :=
| Returned (v : value)
| FellThrough.

Section Client.

Variable env : environment.

Definition fetch (payload : value) : M response :=
  fun w =>
    let k := w_fetches w in
    let w' := mkWorld (S k) (w_draws w) (w_creates w) (w_store w)
                (w_trace w ++ [EvFetch k payload]) in
    match endpoint env k with
    | NetworkFailure e => (Thrown e, w')
    | Responded r => (Ok r, w')
    end.

Definition Math_random : M Q :=
  fun w =>
    (Ok (random env (w_draws w)),
     mkWorld (w_fetches w) (S (w_draws w)) (w_creates w) (w_store w)
       (w_trace w)).

(** [await new Promise(resolve => setTimeout(resolve, delay))]. *)
Definition sleep (delay : Q) : M unit := log (EvSleep delay).

(** The body of the [try] block at loop index [i]. *)
Definition try_body (payload : value) (i : nat) : M completion :=
  response <- fetch payload ;;
  if retryable (status response) then
    if i <? MAX_RETRIES - 1 then
      rnd <- Math_random ;;
      sleep (backoff_delay i rnd) ;;
      ret Continue
    else
      errorText <- lift (body_text response) ;;
      throw (Error (retries_exhausted_message (status response) errorText))
  else if negb (ok response) then
    errorBody <- lift (body_json response) ;;
    throw (Error (client_error_message (status response) errorBody))
  else
    result <- lift (body_json response) ;;
    aiContent <- lift (generated_text result) ;;
    if negb (truthy aiContent) then
      throw (Error content_missing_message)
    else
      ret (Return aiContent).

(** The [catch] block at loop index [i]: rethrow on the last iteration,
    otherwise fall out of the block, on to the next iteration. *)
Definition catch_block (i : nat) (error : js_error) : M completion :=
  if i =? MAX_RETRIES - 1 then throw error else ret Continue.

(** One iteration of the loop. *)
Definition iteration (payload : value) (i : nat) : M completion :=
  try_catch (try_body payload i) (catch_block i).

(** [for (let i = 0; i < MAX_RETRIES; i++)], from index [i] on, with
    [remaining = MAX_RETRIES - i] iterations to go. *)
Fixpoint retry_loop (payload : value) (remaining i : nat) : M loop_exit :=
  match remaining with
  | 0 => ret FellThrough
  | S remaining' =>
      c <- iteration payload i ;;
      match c with
      | Return v => ret (Returned v)
      | Continue => retry_loop payload remaining' (S i)
      end
  end.

Definition callGeminiAPI (payload : value) : M value :=
  exit <- retry_loop payload MAX_RETRIES 0 ;;
  match exit with
  | Returned v => ret v
  | FellThrough => throw (Error fallback_message)
  end.

End Client.

(** ** The turn handler *)

(** The request as the handler reads it: the parsed body and the user
    identity an earlier middleware attached. *)
Record request : Type := mkRequest {
  req_body : value;
  req_userId : value
}.

Definition validation_message : string := "Promt content is required".

Definition generic_message : string :=
  "Something went wrong with the AI response.".

(** [error.message.includes("Gemini API") ? error.message : generic]. *)
Definition errorMessage (error : js_error) : string :=
  if includes (e_message error) "Gemini API" then e_message error
  else generic_message.

(** [const { content } = req.body]: destructuring throws on a nullish body. *)
Definition destructure_content (body : value) : outcome value :=
  if is_nullish body then
    Thrown (TypeError
      ("Cannot destructure property 'content' of 'req.body' as it is "
       ++ stringify body ++ "."))
  else Ok (get_prop "content" body).

(** [content.trim()]: only a string has the method. *)
Definition call_trim (content : value) : outcome string :=
  match content with
  | VStr s => Ok (trim s)
  | _ => Thrown (TypeError "content.trim is not a function")
  end.

(** The single-turn payload sent upstream. *)
Definition make_payload (content : value) : value :=
  VObj [("contents", VArr [VObj [("parts", VArr [VObj [("text", content)]])]])].

Section Handler.

Variable env : environment.

(** Modelled from the spec: [Promt.create] of the message store
    ([model/promt.model.js] is not among the sources).  A create either
    persists the Message as given and returns it, or is rejected and leaves
    the store as it was. *)
Definition Promt_create (userId : value) (r : role) (content : value)
  : M Message :=
  fun w =>
    let m := mkMessage userId r content in
    let k := w_creates w in
    match database env k with
    | Some e =>
        (Thrown e,
         mkWorld (w_fetches w) (w_draws w) (S k) (w_store w)
           (w_trace w ++ [EvCreate m]))
    | None =>
        (Ok m,
         mkWorld (w_fetches w) (w_draws w) (S k) (w_store w ++ [m])
           (w_trace w ++ [EvCreate m]))
    end.

(** [res.status(code).json(body)]. *)
Definition respond (code : Z) (body : value) : M unit :=
  log (EvRespond code body).

Definition console_error (e : js_error) : M unit := log (EvConsoleError e).

(** The [try] block of [sendPromt]. *)
Definition sendPromt_try (userId content : value) : M unit :=
  userPromt <- Promt_create userId user content ;;
  let payload := make_payload content in
  aiContent <- callGeminiAPI env payload ;;
  aiMessage <- Promt_create userId assistant aiContent ;;
  respond 200 (VObj [("reply", aiContent)]).

(** The [catch] block of [sendPromt]. *)
Definition sendPromt_catch (error : js_error) : M unit :=
  console_error error ;;
  respond 500 (VObj [("error", VStr (errorMessage error))]).

Definition sendPromt (req : request) : M unit :=
  content <- lift (destructure_content (req_body req)) ;;
  let userId := req_userId req in
  invalid <- (if negb (truthy content) then ret true
              else trimmed <- lift (call_trim content) ;;
                   ret (trimmed =? "")%string) ;;
  if (invalid : bool) then
    respond 400 (VObj [("errors", VStr validation_message)])
  else
    try_catch (sendPromt_try userId content) sendPromt_catch.

End Handler.

(** ** Vocabulary of the properties *)

(** The outcomes the client backs off on: a response with a retryable
    status.  A rejected [fetch] is not one of them. *)
Definition http_transient (o : fetch_outcome) : bool :=
  match o with
  | Responded r => retryable (status r)
  | NetworkFailure _ => false
  end.

(** The world after the next [fetch], before anything else happens. *)
Definition fetched (payload : value) (w : world) : world :=
  mkWorld (S (w_fetches w)) (w_draws w) (w_creates w) (w_store w)
    (w_trace w ++ [EvFetch (w_fetches w) payload]).

(** The world after the next [fetch] and a backoff wait at loop index [i]. *)
Definition backed_off (env : environment) (payload : value) (i : nat)
  (w : world) : world :=
  mkWorld (S (w_fetches w)) (S (w_draws w)) (w_creates w) (w_store w)
    (w_trace w ++ [EvFetch (w_fetches w) payload;
                   EvSleep (backoff_delay i (random env (w_draws w)))]).

(** The events of attempts [i], [i+1], ..., [n-1]: each attempt is one
    request; a backoff wait follows it exactly when its status is retryable
    and another attempt comes after it. *)
Inductive schedule (env : environment) (payload : value)
  : nat -> nat -> list event -> Prop :=
| schedule_end i : schedule env payload i i []
| schedule_wait i n j rest :
    http_transient (endpoint env i) = true ->
    i < MAX_RETRIES - 1 ->
    S i < n ->
    schedule env payload (S i) n rest ->
    schedule env payload i n
      (EvFetch i payload :: EvSleep (backoff_delay i (random env j)) :: rest)
| schedule_go i n rest :
    http_transient (endpoint env i) && (i <? MAX_RETRIES - 1) = false ->
    schedule env payload (S i) n rest ->
    schedule env payload i n (EvFetch i payload :: rest).

(** The outcomes after which the loop is meant to go on: a rejected
    [fetch] or a retryable status. *)
Definition transient (o : fetch_outcome) : bool :=
  match o with
  | NetworkFailure _ => true
  | Responded r => retryable (status r)
  end.

(** The world after the user turn has been persisted: what the first
    create of the handler's [try] block does when it succeeds. *)
Definition user_stored (userId content : value) (w : world) : world :=
  mkWorld (w_fetches w) (w_draws w) (S (w_creates w))
    (w_store w ++ [mkMessage userId user content])
    (w_trace w ++ [EvCreate (mkMessage userId user content)]).

(** The generated text an attempt's outcome yields, when it yields one:
    the [return] path of the [try] block. *)
Definition success_text (o : fetch_outcome) : option value :=
  match o with
  | NetworkFailure _ => None
  | Responded r =>
      if retryable (status r) then None
      else if negb (ok r) then None
      else match body_json r with
           | Thrown _ => None
           | Ok result =>
               match generated_text result with
               | Thrown _ => None
               | Ok aiContent =>
                   if truthy aiContent then Some aiContent else None
               end
           end
  end.

(** The events of the completion client: requests and timers. *)
Definition client_event (ev : event) : bool :=
  match ev with
  | EvFetch _ _ | EvSleep _ => true
  | _ => false
  end.

Definition is_response (ev : event) : bool :=
  match ev with
  | EvRespond _ _ => true
  | _ => false
  end.

(** The milliseconds a trace spends in timers. *)
Fixpoint total_wait (tr : list event) : Q :=
  match tr with
  | [] => 0
  | EvSleep ms :: rest => ms + total_wait rest
  | _ :: rest => total_wait rest
  end.

(** What the waits after attempts [i], [i+1], ... can add up to at most:
    [2^k * 1000 + 500] for every [k] from [i] to 3. *)
Definition wait_budget (i : nat) : Q :=
  match i with
  | 0 => 17000
  | 1 => 15500
  | 2 => 13000
  | 3 => 8500
  | _ => 0
  end.

(** The waits of [k] backoffs in a row, the first at loop index [i] with
    random draw number [d]. *)
Fixpoint backoff_sum (env : environment) (i d k : nat) : Q :=
  match k with
  | 0 => 0
  | S k' => backoff_delay i (random env d) + backoff_sum env (S i) (S d) k'
  end.

(** ** Line 29 in double precision

    [backoff_delay] above computes in exact arithmetic; the engine computes
    in IEEE binary64 and rounds each product and the sum to the nearest
    double.  The definitions below evaluate the same expression that way, to
    show where the two differ: at the upper end of the jitter. *)

Definition double_mul : spec_float -> spec_float -> spec_float :=
  SFmul 53 1024.

Definition double_add : spec_float -> spec_float -> spec_float :=
  SFadd 53 1024.

(** The double [m * 2^e], for a mantissa [m] below [2^53]. *)
Definition double_of (m : positive) (e : Z) : spec_float :=
  S754_finite false m e.

(** [Math.pow(2, i) * 1000 + rnd * 500] as the engine evaluates it. *)
Definition double_backoff_delay (i : nat) (rnd : spec_float) : spec_float :=
  double_add (double_mul (double_of 1 (Z.of_nat i)) (double_of 1000 0))
    (double_mul rnd (double_of 500 0)).

(** The rational a finite double stands for. *)
Definition double_value (x : spec_float) : Q :=
  match x with
  | S754_finite s m e =>
      ((if s then -1 else 1) * inject_Z (Zpos m) * 2 ^ e)%Q
  | _ => 0
  end.

(** The largest double below 1, [1 - 2^-53]: a value [Math.random] can
    return. *)
Definition largest_draw : spec_float := double_of (2 ^ 53 - 1) (-53).

(** ** Sample data *)

(** A response whose body is the JSON text of [body]. *)
Definition json_response (s : Z) (body : value) : response :=
  mkResponse s (Ok (stringify body)) (Ok body).

(** The envelope the endpoint wraps generated text in. *)
Definition gemini_reply (text : string) : value :=
  VObj [("candidates",
         VArr [VObj [("content",
                      VObj [("parts", VArr [VObj [("text", VStr text)]])])]])].

Definition good_response : response := json_response 200 (gemini_reply "hi").

Definition bad_request : response :=
  json_response 400
    (VObj [("error", VObj [("code", VNum 400);
                           ("status", VStr "INVALID_ARGUMENT")])]).

Definition rate_limited : response :=
  json_response 429
    (VObj [("error", VObj [("code", VNum 429);
                           ("status", VStr "RESOURCE_EXHAUSTED")])]).

(** A success whose candidate list is empty. *)
Definition blocked_response : response :=
  json_response 200 (VObj [("candidates", VArr [])]).

Definition fetch_failed : js_error := TypeError "fetch failed".

Definition storage_down : js_error := Error "connection to the store lost".

(** An endpoint that answers the first request with [first] and every
    later one with [later]. *)
Definition first_then (first later : fetch_outcome) (k : nat)
  : fetch_outcome :=
  match k with
  | 0 => first
  | S _ => later
  end.

(** A simulated environment around [ep]: every random draw is one half,
    every create succeeds. *)
Definition simulated (ep : nat -> fetch_outcome) : environment :=
  mkEnv ep (fun _ => 1 # 2)%Q (fun _ => None).

(** As [simulated], with the [n]-th create rejected. *)
Definition store_fails_at (n : nat) (ep : nat -> fetch_outcome)
  : environment :=
  mkEnv ep (fun _ => 1 # 2)%Q
    (fun k => if k =? n then Some storage_down else None).

Definition hello : request :=
  mkRequest (VObj [("content", VStr "hello")]) (VStr "user-1").

(** An endpoint that is rate limited once and then answers. *)
Definition busy_once : nat -> fetch_outcome :=
  first_then (Responded rate_limited) (Responded good_response).

Definition sample_payload : value := make_payload (VStr "hello").

(** * Properties *)

(** ** One iteration of the retry loop *)

Section ClientFacts.

Variable env : environment.
Variable payload : value.

(** Closes a goal about an iteration whose [try] block has thrown or
    returned: the [catch] block decides on [i], the rest is immediate. *)
Ltac caught_or_returned i :=
  destruct (Nat.eqb_spec i 4); eexists; (split; [reflexivity |]); split;
  intros; try congruence; try discriminate.

(** A retryable status before the last iteration: one request, one draw,
    one wait, then on to the next iteration. *)
Lemma iteration_backoff i w r :
  endpoint env (w_fetches w) = Responded r ->
  retryable (status r) = true ->
  i < MAX_RETRIES - 1 ->
  iteration env payload i w = (Ok Continue, backed_off env payload i w).
Proof.
  intros Hr Hs Hi.
  unfold iteration, try_catch, try_body, bind, fetch.
  rewrite Hr, Hs.
  apply Nat.ltb_lt in Hi. rewrite Hi.
  unfold Math_random, sleep, log, ret, backed_off. cbn.
  rewrite <- app_assoc. reflexivity.
Qed.

(** Every other iteration issues one request and nothing else; before the
    last iteration it never leaves by throwing, at the last one it never
    goes on. *)
Lemma iteration_no_backoff i w :
  http_transient (endpoint env (w_fetches w)) && (i <? MAX_RETRIES - 1)
  = false ->
  exists o, iteration env payload i w = (o, fetched payload w) /\
            (i = MAX_RETRIES - 1 -> o <> Ok Continue) /\
            (i <> MAX_RETRIES - 1 -> forall e, o <> Thrown e).
Proof.
  intros H.
  unfold iteration, try_catch, try_body, bind, fetch, catch_block, lift,
    throw, ret, fetched.
  destruct (endpoint env (w_fetches w)) as [e | r]; cbn in H |- *;
    [caught_or_returned i |].
  destruct (retryable (status r)); cbn in H |- *.
  - rewrite H. apply Nat.leb_gt in H.
    destruct (body_text r); caught_or_returned i; lia.
  - destruct (negb (ok r)).
    + destruct (body_json r); caught_or_returned i.
    + destruct (body_json r) as [result | e]; cbn;
        [| caught_or_returned i].
      destruct (generated_text result) as [aiContent | e]; cbn;
        [| caught_or_returned i].
      destruct (negb (truthy aiContent)); cbn; caught_or_returned i.
Qed.

(** A rejected [fetch] before the last iteration is swallowed by the
    [catch] block: the next iteration follows at once. *)
Lemma iteration_network_failure i w e :
  endpoint env (w_fetches w) = NetworkFailure e ->
  i < MAX_RETRIES - 1 ->
  iteration env payload i w = (Ok Continue, fetched payload w).
Proof.
  intros He Hi.
  unfold iteration, try_catch, try_body, bind, fetch, catch_block.
  rewrite He.
  destruct (Nat.eqb_spec i (MAX_RETRIES - 1)); [lia | reflexivity].
Qed.

(** A retryable status at the last iteration whose body can be read. *)
Lemma iteration_exhausted w r errorText :
  endpoint env (w_fetches w) = Responded r ->
  retryable (status r) = true ->
  body_text r = Ok errorText ->
  iteration env payload (MAX_RETRIES - 1) w =
    (Thrown (Error (retries_exhausted_message (status r) errorText)),
     fetched payload w).
Proof.
  intros Hr Hs Ht.
  unfold iteration, try_catch, try_body, bind, fetch, catch_block, lift.
  rewrite Hr, Hs, Ht. reflexivity.
Qed.

(** A non-success status that is not retryable, with a body that parses:
    the [catch] block rethrows the client error at the last iteration only
    and swallows it before. *)
Lemma iteration_client_error i w r errorBody :
  endpoint env (w_fetches w) = Responded r ->
  retryable (status r) = false ->
  ok r = false ->
  body_json r = Ok errorBody ->
  iteration env payload i w =
    (if i =? MAX_RETRIES - 1
     then Thrown (Error (client_error_message (status r) errorBody))
     else Ok Continue,
     fetched payload w).
Proof.
  intros Hr Hs Hok Hb.
  unfold iteration, try_catch, try_body, bind, fetch, catch_block, lift.
  rewrite Hr, Hs, Hok, Hb. cbv beta iota.
  destruct (i =? MAX_RETRIES - 1); reflexivity.
Qed.

(** A success whose generated text is missing or falsy: the same. *)
Lemma iteration_content_missing i w r result aiContent :
  endpoint env (w_fetches w) = Responded r ->
  retryable (status r) = false ->
  ok r = true ->
  body_json r = Ok result ->
  generated_text result = Ok aiContent ->
  truthy aiContent = false ->
  iteration env payload i w =
    (if i =? MAX_RETRIES - 1
     then Thrown (Error content_missing_message)
     else Ok Continue,
     fetched payload w).
Proof.
  intros Hr Hs Hok Hb Hg Ht.
  unfold iteration, try_catch, try_body, bind, fetch, catch_block, lift.
  rewrite Hr, Hs, Hok, Hb. cbv beta iota. rewrite Hg, Ht.
  destruct (i =? MAX_RETRIES - 1); reflexivity.
Qed.

(** A transient outcome before the last iteration: the loop goes on, one
    request later. *)
Lemma iteration_transient i w :
  transient (endpoint env (w_fetches w)) = true ->
  i < MAX_RETRIES - 1 ->
  exists w', iteration env payload i w = (Ok Continue, w') /\
             w_fetches w' = S (w_fetches w).
Proof.
  intros Ht Hi.
  destruct (endpoint env (w_fetches w)) as [e | r] eqn:Hr.
  - exists (fetched payload w). split; [| reflexivity].
    now apply iteration_network_failure with e.
  - exists (backed_off env payload i w). split; [| reflexivity].
    now apply iteration_backoff with r.
Qed.

(** ** The retry loop *)

Lemma retry_loop_step remaining i w :
  retry_loop env payload (S remaining) i w =
    match iteration env payload i w with
    | (Ok Continue, w') => retry_loop env payload remaining (S i) w'
    | (Ok (Return v), w') => (Ok (Returned v), w')
    | (Thrown e, w') => (Thrown e, w')
    end.
Proof.
  cbn [retry_loop]. unfold bind.
  destruct (iteration env payload i w) as [[[| v] | e] w']; reflexivity.
Qed.

(** What a run of the loop from index [i] does to the world: it leaves by
    [return] or [throw] and never past the last iteration, and its events
    are a schedule. *)
Lemma retry_loop_spec remaining : forall i w,
  w_fetches w = i ->
  i + remaining = MAX_RETRIES ->
  exists o w' tail,
    retry_loop env payload remaining i w = (o, w') /\
    w_trace w' = (w_trace w ++ tail)%list /\
    schedule env payload i (w_fetches w') tail /\
    w_fetches w' <= MAX_RETRIES /\
    (0 < remaining -> i < w_fetches w' /\ o <> Ok FellThrough).
Proof.
  induction remaining as [| r IH]; intros i w Hf Hi; subst i.
  - exists (Ok FellThrough), w, []. cbn. rewrite app_nil_r.
    repeat split; try lia. constructor.
  - rewrite retry_loop_step.
    destruct (http_transient (endpoint env (w_fetches w))
              && (w_fetches w <? MAX_RETRIES - 1)) eqn:Hb.
    + apply andb_prop in Hb as [Ht Hlt]. apply Nat.ltb_lt in Hlt.
      destruct (endpoint env (w_fetches w)) as [e | resp] eqn:Hr;
        [discriminate |].
      rewrite (iteration_backoff _ w resp Hr Ht Hlt).
      destruct (IH (S (w_fetches w))
                  (backed_off env payload (w_fetches w) w) eq_refl) as
        (o & w' & tail & Hrun & Htr & Hs & Hmax & Hpos);
        [cbn; lia |].
      destruct Hpos as [Hn Hexit]; [lia |]. cbn in Hn, Hs.
      exists o, w', (EvFetch (w_fetches w) payload
                     :: EvSleep (backoff_delay (w_fetches w)
                                   (random env (w_draws w)))
                     :: tail).
      rewrite Hrun, Htr. cbn. rewrite <- app_assoc. cbn.
      repeat split; auto; try lia.
      apply schedule_wait; auto.
      rewrite Hr. exact Ht.
    + destruct (iteration_no_backoff _ w Hb) as (o & Hit & Hlast & Hmid).
      rewrite Hit.
      destruct o as [[| v] | e].
      * destruct (IH (S (w_fetches w)) (fetched payload w) eq_refl) as
          (o & w' & tail & Hrun & Htr & Hs & Hmax & Hpos);
          [cbn; lia |].
        assert (0 < r) as Hr.
        { destruct r; [| lia]. exfalso. apply Hlast; [| reflexivity].
          unfold MAX_RETRIES in *. lia. }
        destruct (Hpos Hr) as [Hn Hexit]. cbn in Hn, Hs.
        exists o, w', (EvFetch (w_fetches w) payload :: tail).
        rewrite Hrun, Htr. cbn. rewrite <- app_assoc. cbn.
        repeat split; auto; try lia.
        apply schedule_go; auto.
      * exists (Ok (Returned v)), (fetched payload w),
          [EvFetch (w_fetches w) payload].
        cbn. unfold MAX_RETRIES in *.
        repeat split; auto; try lia; try discriminate.
        apply schedule_go; auto. constructor.
      * exists (Thrown e), (fetched payload w),
          [EvFetch (w_fetches w) payload].
        cbn. unfold MAX_RETRIES in *.
        repeat split; auto; try lia; try discriminate.
        apply schedule_go; auto. constructor.
Qed.

(** The loop touches neither the store nor the create counter. *)
Lemma iteration_frame i w :
  w_store (snd (iteration env payload i w)) = w_store w /\
  w_creates (snd (iteration env payload i w)) = w_creates w.
Proof.
  destruct (http_transient (endpoint env (w_fetches w))
            && (i <? MAX_RETRIES - 1)) eqn:Hb.
  - apply andb_prop in Hb as [Ht Hlt]. apply Nat.ltb_lt in Hlt.
    destruct (endpoint env (w_fetches w)) as [e | resp] eqn:Hr;
      [discriminate |].
    rewrite (iteration_backoff i w resp Hr Ht Hlt). split; reflexivity.
  - destruct (iteration_no_backoff i w Hb) as (o & Hit & _).
    rewrite Hit. split; reflexivity.
Qed.

Lemma retry_loop_frame remaining : forall i w,
  w_store (snd (retry_loop env payload remaining i w)) = w_store w /\
  w_creates (snd (retry_loop env payload remaining i w)) = w_creates w.
Proof.
  induction remaining as [| r IH]; intros i w.
  - split; reflexivity.
  - rewrite retry_loop_step.
    pose proof (iteration_frame i w) as [Hst Hcr].
    destruct (iteration env payload i w) as [[[| v] | e] w1];
      cbn [snd] in *; auto.
    destruct (IH (S i) w1) as [Hst1 Hcr1]. split; congruence.
Qed.

(** The loop leaves by [return] or by [throw], after at most [remaining]
    requests, whatever world it starts in. *)
Lemma retry_loop_exits remaining : forall i w,
  i + remaining = MAX_RETRIES ->
  0 < remaining ->
  exists w',
    ((exists v, retry_loop env payload remaining i w = (Ok (Returned v), w'))
     \/ (exists e, retry_loop env payload remaining i w = (Thrown e, w')))
    /\ w_fetches w < w_fetches w' <= w_fetches w + remaining.
Proof.
  induction remaining as [| r IH]; intros i w Hi Hpos; [lia |].
  rewrite retry_loop_step.
  assert (exists o w1, iteration env payload i w = (o, w1)
                       /\ w_fetches w1 = S (w_fetches w)
                       /\ (i = MAX_RETRIES - 1 -> o <> Ok Continue))
    as (o & w1 & Hit & Hf & Hlast).
  { destruct (http_transient (endpoint env (w_fetches w))
              && (i <? MAX_RETRIES - 1)) eqn:Hb.
    - apply andb_prop in Hb as [Ht Hlt]. apply Nat.ltb_lt in Hlt.
      destruct (endpoint env (w_fetches w)) as [e | resp] eqn:Hr;
        [discriminate |].
      exists (Ok Continue), (backed_off env payload i w).
      rewrite (iteration_backoff i w resp Hr Ht Hlt).
      repeat split. lia.
    - destruct (iteration_no_backoff i w Hb) as (o & Hit & Hlast & _).
      exists o, (fetched payload w). repeat split; auto. }
  rewrite Hit. destruct o as [[| v] | e].
  - destruct r as [| r'].
    + exfalso. apply Hlast; [lia | reflexivity].
    + destruct (IH (S i) w1) as (w' & Hexit & Hn); [lia | lia |].
      exists w'. split; [exact Hexit | lia].
  - exists w1. split; [left; eauto | lia].
  - exists w1. split; [right; eauto | lia].
Qed.

(** ** The client as a whole *)

Lemma callGeminiAPI_world w :
  snd (callGeminiAPI env payload w) =
  snd (retry_loop env payload MAX_RETRIES 0 w).
Proof.
  unfold callGeminiAPI, bind.
  destruct (retry_loop env payload MAX_RETRIES 0 w) as [[[v |] | e] w'];
    reflexivity.
Qed.

Lemma callGeminiAPI_frame w :
  w_store (snd (callGeminiAPI env payload w)) = w_store w /\
  w_creates (snd (callGeminiAPI env payload w)) = w_creates w.
Proof. rewrite callGeminiAPI_world. apply retry_loop_frame. Qed.

Lemma schedule_le i n tail : schedule env payload i n tail -> i <= n.
Proof. induction 1; lia. Qed.

Lemma schedule_head i n tail :
  schedule env payload i n tail -> i < n ->
  exists rest, tail = EvFetch i payload :: rest.
Proof. intros H Hlt. inversion H; subst; eauto. lia. Qed.

Lemma schedule_next i n tail :
  schedule env payload i n tail ->
  tail = [] \/ exists rest, tail = EvFetch i payload :: rest.
Proof. intros H. inversion H; subst; eauto. Qed.

(** In a schedule every attempt [k] is found with what follows it. *)
Lemma schedule_attempt i n tail :
  schedule env payload i n tail ->
  forall k, i <= k < n ->
  exists before after,
    tail = (before ++ EvFetch k payload :: after)%list /\
    if http_transient (endpoint env k) && (k <? MAX_RETRIES - 1)
    then exists j rest,
           after = EvSleep (backoff_delay k (random env j))
                   :: EvFetch (S k) payload :: rest
    else after = [] \/ exists rest, after = EvFetch (S k) payload :: rest.
Proof.
  induction 1 as [i | i n j rest Ht Hlt Hn Hs IH | i n rest Hb Hs IH];
    intros k Hk.
  - lia.
  - destruct (Nat.eq_dec k i) as [-> | Hne].
    + exists [], (EvSleep (backoff_delay i (random env j)) :: rest).
      split; [reflexivity |].
      apply Nat.ltb_lt in Hlt. rewrite Ht, Hlt. cbn.
      destruct (schedule_head _ _ _ Hs Hn) as [rest' ->]. eauto.
    + destruct (IH k) as (before & after & -> & Hafter); [lia |].
      exists (EvFetch i payload
              :: EvSleep (backoff_delay i (random env j)) :: before), after.
      split; [reflexivity | exact Hafter].
  - destruct (Nat.eq_dec k i) as [-> | Hne].
    + exists [], rest. split; [reflexivity |].
      rewrite Hb. apply (schedule_next _ _ _ Hs).
    + destruct (IH k) as (before & after & -> & Hafter); [lia |].
      exists (EvFetch i payload :: before), after.
      split; [reflexivity | exact Hafter].
Qed.

End ClientFacts.

(** The delay of a backoff wait lies within half a second above its
    exponential base, as long as [Math.random] stays in [0, 1). *)
Lemma backoff_delay_bounds i rnd :
  (0 <= rnd < 1)%Q ->
  (inject_Z (2 ^ Z.of_nat i * 1000) <= backoff_delay i rnd
   < inject_Z (2 ^ Z.of_nat i * 1000) + 500)%Q.
Proof.
  intros [H0 H1]. unfold backoff_delay.
  generalize (inject_Z (2 ^ Z.of_nat i * 1000)). intros base.
  split; lra.
Qed.

(** In double precision the jitter reaches its upper end: with the largest
    draw below 1 the delay of line 29 is exactly [2^i * 1000 + 500] at every
    loop index that waits, where the exact value stays below it. *)
Lemma double_backoff_reaches_upper_end :
  (0 <= double_value largest_draw < 1)%Q /\
  (double_value (double_backoff_delay 0 largest_draw) == 1500)%Q /\
  (double_value (double_backoff_delay 1 largest_draw) == 2500)%Q /\
  (double_value (double_backoff_delay 2 largest_draw) == 4500)%Q /\
  (double_value (double_backoff_delay 3 largest_draw) == 8500)%Q /\
  (backoff_delay 0 (double_value largest_draw) < 1500)%Q.
Proof.
  repeat split; try (vm_compute; reflexivity).
  vm_compute. discriminate.
Qed.

(** ** The completion client: claims *)

Ltac index_bound := cbn; unfold MAX_RETRIES; lia.

(** C9.  Whatever the endpoint answers, the loop of [callGeminiAPI] leaves
    by [return] or by [throw] within its [MAX_RETRIES] iterations (at least
    one and at most five requests), and the call ends the same way: the
    fallback [throw] after the loop is never reached. *)
Theorem fallback_unreachable env payload w :
  fst (retry_loop env payload MAX_RETRIES 0 w) <> Ok FellThrough /\
  exists w',
    ((exists v, retry_loop env payload MAX_RETRIES 0 w = (Ok (Returned v), w')
                /\ callGeminiAPI env payload w = (Ok v, w'))
     \/ (exists e, retry_loop env payload MAX_RETRIES 0 w = (Thrown e, w')
                   /\ callGeminiAPI env payload w = (Thrown e, w')))
    /\ w_fetches w < w_fetches w' <= w_fetches w + MAX_RETRIES.
Proof.
  destruct (retry_loop_exits env payload MAX_RETRIES 0 w)
    as (w' & [[v Hrun] | [e Hrun]] & Hn);
    [reflexivity | unfold MAX_RETRIES; lia | |].
  - split; [rewrite Hrun; discriminate |].
    exists w'. split; [| exact Hn]. left. exists v. split; [exact Hrun |].
    unfold callGeminiAPI, bind. rewrite Hrun. reflexivity.
  - split; [rewrite Hrun; discriminate |].
    exists w'. split; [| exact Hn]. right. exists e. split; [exact Hrun |].
    unfold callGeminiAPI, bind. rewrite Hrun. reflexivity.
Qed.

(** C4, as amended.  When every attempt's outcome is transient and the
    fifth is a response with a retryable status whose body can be read, the
    call makes exactly five requests and throws the retries-exhausted error
    carrying that last status and body. *)
Theorem retries_exhausted env payload store r errorText :
  (forall k, k < MAX_RETRIES -> transient (endpoint env k) = true) ->
  endpoint env (MAX_RETRIES - 1) = Responded r ->
  body_text r = Ok errorText ->
  exists w',
    callGeminiAPI env payload (start store) =
      (Thrown (Error (retries_exhausted_message (status r) errorText)), w') /\
    w_fetches w' = MAX_RETRIES.
Proof.
  intros Hall Hlast Htext.
  assert (retryable (status r) = true) as Hs.
  { specialize (Hall (MAX_RETRIES - 1)). rewrite Hlast in Hall.
    apply Hall. unfold MAX_RETRIES. lia. }
  unfold callGeminiAPI, bind, MAX_RETRIES at 1.
  destruct (iteration_transient env payload 0 (start store))
    as (w1 & H1 & F1); [apply Hall; index_bound | index_bound |].
  cbn [start w_fetches] in F1.
  rewrite retry_loop_step, H1.
  destruct (iteration_transient env payload 1 w1)
    as (w2 & H2 & F2); [rewrite F1; apply Hall; index_bound | index_bound |].
  rewrite F1 in F2.
  rewrite retry_loop_step, H2.
  destruct (iteration_transient env payload 2 w2)
    as (w3 & H3 & F3); [rewrite F2; apply Hall; index_bound | index_bound |].
  rewrite F2 in F3.
  rewrite retry_loop_step, H3.
  destruct (iteration_transient env payload 3 w3)
    as (w4 & H4 & F4); [rewrite F3; apply Hall; index_bound | index_bound |].
  rewrite F3 in F4.
  rewrite retry_loop_step, H4.
  change (MAX_RETRIES - 1) with 4 in Hlast. rewrite <- F4 in Hlast.
  pose proof (iteration_exhausted env payload w4 r errorText Hlast Hs Htext)
    as H5.
  change (MAX_RETRIES - 1) with 4 in H5.
  rewrite retry_loop_step, H5.
  eexists. split; [reflexivity |]. cbn. rewrite F4. reflexivity.
Qed.

(** An endpoint that is always rate limited meets the premises. *)
Lemma retries_exhausted_witness :
  exists w',
    callGeminiAPI (simulated (fun _ => Responded rate_limited))
      sample_payload (start []) =
      (Thrown (Error (retries_exhausted_message 429
                        (stringify (VObj [("error",
                           VObj [("code", VNum 429);
                                 ("status", VStr "RESOURCE_EXHAUSTED")])])))),
       w') /\
    w_fetches w' = MAX_RETRIES.
Proof.
  apply (retries_exhausted (simulated (fun _ => Responded rate_limited))
           sample_payload [] rate_limited).
  - intros k _. reflexivity.
  - reflexivity.
  - reflexivity.
Defined.

(** C4 as stated fails when the last transient outcome is a rejected
    [fetch]: after five requests the call rethrows the network error, which
    is no retries-exhausted error and carries no status or body. *)
Lemma exhausted_by_network_failures :
  (forall k, k < MAX_RETRIES ->
     transient (endpoint (simulated (fun _ => NetworkFailure fetch_failed)) k)
     = true) /\
  callGeminiAPI (simulated (fun _ => NetworkFailure fetch_failed))
    sample_payload (start []) =
    (Thrown fetch_failed,
     mkWorld 5 0 0 []
       [EvFetch 0 sample_payload; EvFetch 1 sample_payload;
        EvFetch 2 sample_payload; EvFetch 3 sample_payload;
        EvFetch 4 sample_payload]) /\
  (forall s errorText,
     fetch_failed <> Error (retries_exhausted_message s errorText)).
Proof.
  split; [intros k _; reflexivity |].
  split; [reflexivity |].
  intros s errorText H. discriminate H.
Qed.

(** C3, as amended.  In every run, attempt [k] is one request.  When it
    receives a retryable status (429 or 5xx) and is not the fifth attempt,
    a wait of [2^k * 1000] ms plus a jitter of at least 0 and at most 500
    follows, and then attempt [k+1]; [k] is the zero-based index of the
    attempt.  The upper end is included: the engine rounds the sum to a
    double, which can be [2^k * 1000 + 500] itself (see
    [double_backoff_reaches_upper_end]).  After any other attempt (a
    rejected [fetch], a terminal outcome, a success, the fifth attempt)
    there is no wait: the run ends or attempt [k+1] follows at once. *)
Theorem backoff_between_attempts env payload store k :
  (forall n, 0 <= random env n < 1)%Q ->
  k < w_fetches (snd (callGeminiAPI env payload (start store))) ->
  exists before after,
    w_trace (snd (callGeminiAPI env payload (start store))) =
      (before ++ EvFetch k payload :: after)%list /\
    if http_transient (endpoint env k) && (k <? MAX_RETRIES - 1)
    then exists jitter rest,
           after = EvSleep (inject_Z (2 ^ Z.of_nat k * 1000) + jitter)%Q
                   :: EvFetch (S k) payload :: rest /\
           (0 <= jitter <= 500)%Q
    else after = [] \/ exists rest, after = EvFetch (S k) payload :: rest.
Proof.
  intros Hrandom. rewrite callGeminiAPI_world. intros Hk.
  destruct (retry_loop_spec env payload MAX_RETRIES 0 (start store))
    as (o & w' & tail & Hrun & Htr & Hs & _); [reflexivity | reflexivity |].
  rewrite Hrun in Hk |- *. cbn [snd] in Hk |- *.
  rewrite Htr. cbn [start w_trace app].
  destruct (schedule_attempt env payload 0 (w_fetches w') tail Hs k)
    as (before & after & -> & Hafter); [lia |].
  exists before, after. split; [reflexivity |].
  destruct (http_transient (endpoint env k) && (k <? MAX_RETRIES - 1)).
  - destruct Hafter as (j & rest & ->).
    exists (random env j * 500)%Q, rest. split; [reflexivity |].
    destruct (Hrandom j). split; lra.
  - exact Hafter.
Qed.

(** Rate limited once, then answered: one second and a jitter are waited
    between the two requests. *)
Lemma backoff_between_attempts_witness :
  exists before after,
    w_trace (snd (callGeminiAPI
                    (simulated (first_then (Responded rate_limited)
                                  (Responded good_response)))
                    sample_payload (start []))) =
      (before ++ EvFetch 0 sample_payload :: after)%list /\
    exists jitter rest,
      after = EvSleep (inject_Z 1000 + jitter)%Q
              :: EvFetch 1 sample_payload :: rest /\
      (0 <= jitter <= 500)%Q.
Proof.
  apply (backoff_between_attempts
           (simulated (first_then (Responded rate_limited)
                         (Responded good_response)))
           sample_payload [] 0).
  - intros n. split; [discriminate | reflexivity].
  - vm_compute. lia.
Defined.

(** C3 as stated fails for a rejected [fetch]: the next attempt follows
    with no wait in between. *)
Lemma network_failure_retried_without_wait :
  transient (endpoint (simulated (first_then (NetworkFailure fetch_failed)
                                    (Responded good_response))) 0) = true /\
  callGeminiAPI (simulated (first_then (NetworkFailure fetch_failed)
                              (Responded good_response)))
    sample_payload (start []) =
    (Ok (VStr "hi"),
     mkWorld 2 0 0 [] [EvFetch 0 sample_payload; EvFetch 1 sample_payload]) /\
  ~ (exists before ms after,
       [EvFetch 0 sample_payload; EvFetch 1 sample_payload] =
       (before ++ EvFetch 0 sample_payload :: EvSleep ms :: after)%list).
Proof.
  split; [reflexivity |]. split; [reflexivity |].
  intros (before & ms & after & H).
  destruct before as [| e0 [| e1 [| e2 before]]]; cbn in H;
    discriminate H.
Qed.

(** C1.  The code at a failing input: a 400 on the first attempt is not
    thrown; the [catch] block swallows the client error and the second
    attempt follows, whose answer the call returns.  Against an endpoint
    that always answers 400 the call makes five requests and throws the
    client error only at the fifth. *)
Theorem client_error_swallowed_before_last_attempt :
  callGeminiAPI (simulated (first_then (Responded bad_request)
                              (Responded good_response)))
    sample_payload (start []) =
    (Ok (VStr "hi"),
     mkWorld 2 0 0 [] [EvFetch 0 sample_payload; EvFetch 1 sample_payload]) /\
  callGeminiAPI (simulated (fun _ => Responded bad_request))
    sample_payload (start []) =
    (Thrown (Error (client_error_message 400
                      (VObj [("error",
                              VObj [("code", VNum 400);
                                    ("status", VStr "INVALID_ARGUMENT")])]))),
     mkWorld 5 0 0 []
       [EvFetch 0 sample_payload; EvFetch 1 sample_payload;
        EvFetch 2 sample_payload; EvFetch 3 sample_payload;
        EvFetch 4 sample_payload]).
Proof. split; reflexivity. Qed.

(** C2.  The code at a failing input: a 200 without generated text on the
    first attempt is not thrown; the [catch] block swallows the
    content-missing error and the second attempt follows, whose answer the
    call returns.  Against an endpoint that always answers so the call makes
    five requests and throws the content-missing error only at the fifth. *)
Theorem content_missing_swallowed_before_last_attempt :
  callGeminiAPI (simulated (first_then (Responded blocked_response)
                              (Responded good_response)))
    sample_payload (start []) =
    (Ok (VStr "hi"),
     mkWorld 2 0 0 [] [EvFetch 0 sample_payload; EvFetch 1 sample_payload]) /\
  callGeminiAPI (simulated (fun _ => Responded blocked_response))
    sample_payload (start []) =
    (Thrown (Error content_missing_message),
     mkWorld 5 0 0 []
       [EvFetch 0 sample_payload; EvFetch 1 sample_payload;
        EvFetch 2 sample_payload; EvFetch 3 sample_payload;
        EvFetch 4 sample_payload]).
Proof. split; reflexivity. Qed.

(** ** The turn handler: claims *)

Section HandlerFacts.

Variable env : environment.

(** Content that passes validation: the handler goes on to its [try]
    block. *)
Lemma sendPromt_valid req s w :
  destructure_content (req_body req) = Ok (VStr s) ->
  (trim s =? "")%string = false ->
  sendPromt env req w =
    try_catch (sendPromt_try env (req_userId req) (VStr s))
      (sendPromt_catch) w.
Proof.
  intros Hd Ht.
  assert (s <> "") as Hs by (intros ->; discriminate Ht).
  apply String.eqb_neq in Hs.
  unfold sendPromt, bind, lift at 1. rewrite Hd.
  unfold truthy. rewrite Hs. cbv beta iota.
  unfold negb, lift, call_trim, ret. rewrite Ht. reflexivity.
Qed.

Lemma first_create_ok userId content w :
  database env (w_creates w) = None ->
  Promt_create env userId user content w =
    (Ok (mkMessage userId user content), user_stored userId content w).
Proof. intros H. unfold Promt_create. rewrite H. reflexivity. Qed.

Lemma completion_frame p w aiContent w1 :
  callGeminiAPI env p w = (Ok aiContent, w1) ->
  w_store w1 = w_store w /\ w_creates w1 = w_creates w.
Proof.
  intros H. pose proof (callGeminiAPI_frame env p w) as F.
  rewrite H in F. exact F.
Qed.

End HandlerFacts.

(** C5.  For non-blank string content, when both creates succeed and the
    completion returns [aiContent], the handler persists exactly two
    Messages, the user turn with the submitted content and then the
    assistant turn with the generated text, both under the request's user
    identifier, and answers 200 with [reply] equal to the assistant
    Message's content. *)
Theorem successful_turn env req s aiContent w w1 :
  destructure_content (req_body req) = Ok (VStr s) ->
  (trim s =? "")%string = false ->
  database env (w_creates w) = None ->
  callGeminiAPI env (make_payload (VStr s))
    (user_stored (req_userId req) (VStr s) w) = (Ok aiContent, w1) ->
  database env (S (w_creates w)) = None ->
  sendPromt env req w =
    (Ok tt,
     mkWorld (w_fetches w1) (w_draws w1) (2 + w_creates w)
       (w_store w ++ [mkMessage (req_userId req) user (VStr s);
                      mkMessage (req_userId req) assistant aiContent])
       (w_trace w1
        ++ [EvCreate (mkMessage (req_userId req) assistant aiContent);
            EvRespond 200 (VObj [("reply", aiContent)])])).
Proof.
  intros Hd Ht Hc0 Hcall Hc1.
  rewrite (sendPromt_valid env req s w Hd Ht).
  unfold try_catch, sendPromt_try, bind.
  rewrite (first_create_ok env _ _ w Hc0), Hcall.
  destruct (completion_frame env _ _ _ _ Hcall) as [Hst Hcr].
  cbn [user_stored w_store w_creates] in Hst, Hcr.
  unfold Promt_create. rewrite Hcr, Hc1.
  unfold respond, log. cbn [w_fetches w_draws w_creates w_store w_trace].
  rewrite Hst, <- !app_assoc. reflexivity.
Qed.

(** A turn against an endpoint that is rate limited once and then answers. *)
Lemma successful_turn_witness :
  sendPromt (simulated busy_once) hello (start []) =
    (Ok tt,
     mkWorld 2 1 2
       [mkMessage (VStr "user-1") user (VStr "hello");
        mkMessage (VStr "user-1") assistant (VStr "hi")]
       (w_trace (snd (callGeminiAPI (simulated busy_once) sample_payload
                        (user_stored (VStr "user-1") (VStr "hello")
                           (start []))))
        ++ [EvCreate (mkMessage (VStr "user-1") assistant (VStr "hi"));
            EvRespond 200 (VObj [("reply", VStr "hi")])])).
Proof.
  apply (successful_turn (simulated busy_once) hello "hello" (VStr "hi")
           (start [])
           (snd (callGeminiAPI (simulated busy_once) sample_payload
                   (user_stored (VStr "user-1") (VStr "hello") (start []))))).
  - reflexivity.
  - reflexivity.
  - reflexivity.
  - reflexivity.
  - reflexivity.
Defined.

(** C6, as amended.  When the request has a body and its content is
    missing ([undefined] or [null]), or is a string that is blank after
    trimming, the handler answers 400 with an [errors] field and does
    nothing else: no Message is persisted, no create is attempted and no
    request goes to the endpoint. *)
Theorem blank_content_rejected env req content w :
  destructure_content (req_body req) = Ok content ->
  is_nullish content = true \/ (exists s, content = VStr s /\ trim s = "") ->
  sendPromt env req w =
    (Ok tt,
     mkWorld (w_fetches w) (w_draws w) (w_creates w) (w_store w)
       (w_trace w
        ++ [EvRespond 400 (VObj [("errors", VStr validation_message)])])).
Proof.
  intros Hd [Hn | (s & -> & Ht)];
    unfold sendPromt, bind, lift at 1; rewrite Hd.
  - destruct content; try discriminate Hn; reflexivity.
  - unfold truthy. destruct (s =? "")%string; cbv beta iota.
    + reflexivity.
    + unfold negb, lift, call_trim, ret. rewrite Ht. reflexivity.
Qed.

(** Three spaces are blank. *)
Lemma blank_content_rejected_witness :
  sendPromt (simulated busy_once)
    (mkRequest (VObj [("content", VStr "   ")]) (VStr "user-1")) (start []) =
    (Ok tt,
     mkWorld 0 0 0 []
       [EvRespond 400 (VObj [("errors", VStr validation_message)])]).
Proof.
  apply (blank_content_rejected (simulated busy_once)
           (mkRequest (VObj [("content", VStr "   ")]) (VStr "user-1"))
           (VStr "   ") (start [])).
  - reflexivity.
  - right. exists "   ". split; reflexivity.
Defined.

(** C6 as stated fails for a request without a body: its content is
    missing, and the destructuring of [req.body] throws a [TypeError] out of
    [sendPromt] before any response is sent. *)
Lemma missing_body_throws :
  get_prop "content" (req_body (mkRequest VUndefined (VStr "user-1")))
  = VUndefined /\
  sendPromt (simulated busy_once) (mkRequest VUndefined (VStr "user-1"))
    (start []) =
    (Thrown (TypeError
       ("Cannot destructure property 'content' of 'req.body' as it is "
        ++ "undefined.")),
     start []) /\
  w_trace (snd (sendPromt (simulated busy_once)
                  (mkRequest VUndefined (VStr "user-1")) (start []))) = [].
Proof. repeat split; reflexivity. Qed.

(** C7.  When the [try] block of the handler throws, whatever threw, the
    handler logs the error and answers 500 with an [error] field: the
    error's own message when that message includes "Gemini API", the generic
    message otherwise. *)
Theorem failure_response env req s w e w1 :
  destructure_content (req_body req) = Ok (VStr s) ->
  (trim s =? "")%string = false ->
  sendPromt_try env (req_userId req) (VStr s) w = (Thrown e, w1) ->
  exists msg,
    sendPromt env req w =
      (Ok tt,
       mkWorld (w_fetches w1) (w_draws w1) (w_creates w1) (w_store w1)
         (w_trace w1 ++ [EvConsoleError e;
                         EvRespond 500 (VObj [("error", VStr msg)])])) /\
    (includes (e_message e) "Gemini API" = true -> msg = e_message e) /\
    (includes (e_message e) "Gemini API" = false -> msg = generic_message).
Proof.
  intros Hd Ht Htry.
  exists (errorMessage e). split.
  - rewrite (sendPromt_valid env req s w Hd Ht).
    unfold try_catch. rewrite Htry.
    unfold sendPromt_catch, bind, console_error, respond, log.
    cbn [w_fetches w_draws w_creates w_store w_trace].
    rewrite <- app_assoc. reflexivity.
  - unfold errorMessage.
    destruct (includes (e_message e) "Gemini API"); split; intros H;
      try reflexivity; discriminate H.
Qed.

(** The first create is rejected: the generic message is sent. *)
Lemma failure_response_witness :
  exists msg,
    sendPromt (store_fails_at 0 busy_once) hello (start []) =
      (Ok tt,
       mkWorld 0 0 1 []
         [EvCreate (mkMessage (VStr "user-1") user (VStr "hello"));
          EvConsoleError storage_down;
          EvRespond 500 (VObj [("error", VStr msg)])]) /\
    (includes (e_message storage_down) "Gemini API" = true ->
     msg = e_message storage_down) /\
    (includes (e_message storage_down) "Gemini API" = false ->
     msg = generic_message).
Proof.
  apply (failure_response (store_fails_at 0 busy_once) hello "hello"
           (start []) storage_down
           (mkWorld 0 0 1 []
              [EvCreate (mkMessage (VStr "user-1") user (VStr "hello"))])).
  - reflexivity.
  - reflexivity.
  - reflexivity.
Defined.

(** C8.  When the user turn is persisted, the completion returns and the
    second create is rejected, the handler answers 500, and the store holds
    what it held before plus the user Message: nothing is removed or
    rewritten, and no further store call follows the failed one. *)
Theorem orphaned_user_turn env req s aiContent w w1 e :
  destructure_content (req_body req) = Ok (VStr s) ->
  (trim s =? "")%string = false ->
  database env (w_creates w) = None ->
  callGeminiAPI env (make_payload (VStr s))
    (user_stored (req_userId req) (VStr s) w) = (Ok aiContent, w1) ->
  database env (S (w_creates w)) = Some e ->
  sendPromt env req w =
    (Ok tt,
     mkWorld (w_fetches w1) (w_draws w1) (2 + w_creates w)
       (w_store w ++ [mkMessage (req_userId req) user (VStr s)])
       (w_trace w1
        ++ [EvCreate (mkMessage (req_userId req) assistant aiContent);
            EvConsoleError e;
            EvRespond 500 (VObj [("error", VStr (errorMessage e))])])).
Proof.
  intros Hd Ht Hc0 Hcall Hc1.
  rewrite (sendPromt_valid env req s w Hd Ht).
  unfold try_catch, sendPromt_try, bind.
  rewrite (first_create_ok env _ _ w Hc0), Hcall.
  destruct (completion_frame env _ _ _ _ Hcall) as [Hst Hcr].
  cbn [user_stored w_store w_creates] in Hst, Hcr.
  unfold Promt_create. rewrite Hcr, Hc1.
  unfold sendPromt_catch, bind, console_error, respond, log.
  cbn [w_fetches w_draws w_creates w_store w_trace].
  rewrite Hst, <- !app_assoc. reflexivity.
Qed.

(** The second create is rejected after a completed completion. *)
Lemma orphaned_user_turn_witness :
  sendPromt (store_fails_at 1 busy_once) hello (start []) =
    (Ok tt,
     mkWorld 2 1 2
       [mkMessage (VStr "user-1") user (VStr "hello")]
       (w_trace (snd (callGeminiAPI (store_fails_at 1 busy_once)
                        sample_payload
                        (user_stored (VStr "user-1") (VStr "hello")
                           (start []))))
        ++ [EvCreate (mkMessage (VStr "user-1") assistant (VStr "hi"));
            EvConsoleError storage_down;
            EvRespond 500 (VObj [("error", VStr generic_message)])])).
Proof.
  apply (orphaned_user_turn (store_fails_at 1 busy_once) hello "hello"
           (VStr "hi") (start [])
           (snd (callGeminiAPI (store_fails_at 1 busy_once) sample_payload
                   (user_stored (VStr "user-1") (VStr "hello") (start []))))
           storage_down).
  - reflexivity.
  - reflexivity.
  - reflexivity.
  - reflexivity.
  - reflexivity.
Defined.

(** C10.  When the request's content is truthy and not a string, the
    handler throws the [TypeError] of [content.trim()] out of [sendPromt]:
    nothing has happened by then, no response was sent and none follows. *)
Theorem non_string_content_throws env req content w :
  destructure_content (req_body req) = Ok content ->
  truthy content = true ->
  (forall s, content <> VStr s) ->
  sendPromt env req w =
    (Thrown (TypeError "content.trim is not a function"), w).
Proof.
  intros Hd Ht Hns.
  unfold sendPromt, bind, lift at 1. rewrite Hd, Ht. cbv beta iota.
  destruct content; try reflexivity; try discriminate Ht.
  now destruct (Hns s).
Qed.

(** A number as content. *)
Lemma non_string_content_throws_witness :
  sendPromt (simulated busy_once)
    (mkRequest (VObj [("content", VNum 42)]) (VStr "user-1")) (start []) =
    (Thrown (TypeError "content.trim is not a function"), start []).
Proof.
  apply (non_string_content_throws (simulated busy_once)
           (mkRequest (VObj [("content", VNum 42)]) (VStr "user-1"))
           (VNum 42) (start [])).
  - reflexivity.
  - reflexivity.
  - intros s H. discriminate H.
Defined.

(** * Further properties *)

(** ** The completion client *)

Section ClientMore.

Variable env : environment.
Variable payload : value.

(** Closes the case of an iteration whose [try] block threw: the [catch]
    block goes on or rethrows, by [i]. *)
Ltac goes_on i :=
  destruct (Nat.eqb_spec i (MAX_RETRIES - 1)); do 2 eexists;
  (split; [reflexivity |]); repeat split; intros; eauto; lia.

(** An iteration by the outcome of its request: a success returns its text
    at once; anything else goes on to the next iteration, or throws at the
    last one. *)
Lemma iteration_by_outcome i w :
  match success_text (endpoint env (w_fetches w)) with
  | Some v =>
      iteration env payload i w = (Ok (Return v), fetched payload w) /\
      truthy v = true
  | None =>
      exists o w',
        iteration env payload i w = (o, w') /\
        w_fetches w' = S (w_fetches w) /\
        (i = MAX_RETRIES - 1 -> exists e, o = Thrown e) /\
        (i < MAX_RETRIES - 1 -> o = Ok Continue)
  end.
Proof.
  unfold success_text, iteration, try_catch, try_body, bind, fetch,
    catch_block, lift, throw, ret, fetched, Math_random, sleep, log.
  destruct (endpoint env (w_fetches w)) as [e | r]; cbv beta iota;
    [goes_on i |].
  destruct (retryable (status r)).
  - destruct (Nat.ltb_spec i (MAX_RETRIES - 1)).
    + do 2 eexists; (split; [reflexivity |]); repeat split; intros;
        eauto; lia.
    + destruct (body_text r); cbv beta iota; goes_on i.
  - destruct (negb (ok r)).
    + destruct (body_json r); cbv beta iota; goes_on i.
    + destruct (body_json r) as [result | e]; cbv beta iota;
        [| goes_on i].
      destruct (generated_text result) as [aiContent | e]; cbv beta iota;
        [| goes_on i].
      destruct (truthy aiContent) eqn:Ht; cbv beta iota; [| goes_on i].
      split; [reflexivity | exact Ht].
Qed.

Lemma retry_loop_first_success k : forall remaining i w v,
  i + remaining = MAX_RETRIES ->
  k < remaining ->
  success_text (endpoint env (w_fetches w + k)) = Some v ->
  (forall j, j < k -> success_text (endpoint env (w_fetches w + j)) = None) ->
  exists w',
    retry_loop env payload remaining i w = (Ok (Returned v), w') /\
    w_fetches w' = w_fetches w + S k.
Proof.
  induction k as [| k IH]; intros remaining i w v Hi Hk Hv Hnone;
    (destruct remaining as [| r]; [lia |]); rewrite retry_loop_step;
    pose proof (iteration_by_outcome i w) as Hit.
  - rewrite Nat.add_0_r in Hv. rewrite Hv in Hit. destruct Hit as [-> _].
    eexists. split; [reflexivity |]. cbn. lia.
  - rewrite <- (Nat.add_0_r (w_fetches w)) in Hit.
    rewrite (Hnone 0) in Hit by lia.
    destruct Hit as (o & w1 & -> & Hf & _ & Hgo).
    rewrite Hgo by lia.
    destruct (IH r (S i) w1 v) as (w' & Hrun & Hf'); try lia.
    + rewrite Hf. rewrite <- Hv. f_equal. f_equal. lia.
    + intros j Hj. rewrite Hf. rewrite <- (Hnone (S j)) by lia.
      f_equal. f_equal. lia.
    + exists w'. split; [exact Hrun | lia].
Qed.

Lemma retry_loop_returned remaining : forall i w v w',
  i + remaining = MAX_RETRIES ->
  retry_loop env payload remaining i w = (Ok (Returned v), w') ->
  exists k, w_fetches w' = S k /\
            success_text (endpoint env k) = Some v /\
            truthy v = true.
Proof.
  induction remaining as [| r IH]; intros i w v w' Hi Hrun;
    [discriminate Hrun |].
  rewrite retry_loop_step in Hrun.
  pose proof (iteration_by_outcome i w) as Hit.
  destruct (success_text (endpoint env (w_fetches w))) as [v0 |] eqn:Hs.
  - destruct Hit as [Hit Ht]. rewrite Hit in Hrun.
    injection Hrun as <- <-. exists (w_fetches w). auto.
  - destruct Hit as (o & w1 & Hit & Hf & Hlast & Hgo). rewrite Hit in Hrun.
    destruct r as [| r'].
    + destruct Hlast as [e ->]; [lia |]. discriminate Hrun.
    + rewrite Hgo in Hrun by lia. apply (IH (S i) w1 v w'); [lia | exact Hrun].
Qed.

Lemma iteration_events i w :
  exists tail,
    w_trace (snd (iteration env payload i w)) = (w_trace w ++ tail)%list /\
    forallb client_event tail = true /\
    (forall k p, In (EvFetch k p) tail -> p = payload).
Proof.
  destruct (http_transient (endpoint env (w_fetches w))
            && (i <? MAX_RETRIES - 1)) eqn:Hb.
  - apply andb_prop in Hb as [Ht Hlt]. apply Nat.ltb_lt in Hlt.
    destruct (endpoint env (w_fetches w)) as [e | resp] eqn:Hr;
      [discriminate |].
    rewrite (iteration_backoff env payload i w resp Hr Ht Hlt).
    eexists. split; [reflexivity |]. split; [reflexivity |].
    intros k p [H | [H | []]]; [now injection H | discriminate H].
  - destruct (iteration_no_backoff env payload i w Hb) as (o & Hit & _).
    rewrite Hit. eexists. split; [reflexivity |]. split; [reflexivity |].
    intros k p [H | []]. now injection H.
Qed.

Lemma retry_loop_events remaining : forall i w,
  exists tail,
    w_trace (snd (retry_loop env payload remaining i w)) =
      (w_trace w ++ tail)%list /\
    forallb client_event tail = true /\
    (forall k p, In (EvFetch k p) tail -> p = payload).
Proof.
  induction remaining as [| r IH]; intros i w.
  - exists []. rewrite app_nil_r. repeat split. intros k p [].
  - rewrite retry_loop_step.
    destruct (iteration_events i w) as (t1 & Ht1 & Hc1 & Hp1).
    destruct (iteration env payload i w) as [[[| v] | e] w1];
      cbn [snd] in *; eauto.
    destruct (IH (S i) w1) as (t2 & Ht2 & Hc2 & Hp2).
    exists (t1 ++ t2)%list.
    rewrite Ht2, Ht1, app_assoc, forallb_app, Hc1, Hc2.
    repeat split.
    intros k p Hin. apply in_app_or in Hin as [Hin | Hin]; eauto.
Qed.

(** The waits of a schedule stay within the budget of its first attempt. *)
Lemma schedule_wait_budget i n tail :
  (forall j, 0 <= random env j < 1)%Q ->
  schedule env payload i n tail ->
  (0 <= total_wait tail)%Q /\
  (total_wait tail == 0 \/ total_wait tail < wait_budget i)%Q.
Proof.
  intros Hrandom Hs.
  induction Hs as [i | i n j rest Ht Hlt Hn Hs [IH0 IH]
                  | i n rest Hb Hs [IH0 IH]];
    cbn [total_wait].
  - split; [lra | left; reflexivity].
  - pose proof (backoff_delay_bounds i (random env j) (Hrandom j)) as [Hlo Hhi].
    assert (0 <= inject_Z (2 ^ Z.of_nat i * 1000))%Q as Hbase.
    { change 0%Q with (inject_Z 0). rewrite <- Zle_Qle.
      apply Z.mul_nonneg_nonneg; [apply Z.pow_nonneg |]; lia. }
    split; [lra |]. right.
    unfold MAX_RETRIES in Hlt.
    destruct i as [| [| [| [| i]]]]; [| | | | lia];
      cbn [wait_budget] in *;
      match type of Hhi with
      | context [inject_Z ?z] =>
          let c := eval vm_compute in z in
          change (inject_Z z) with (inject_Z c) in Hhi;
          unfold inject_Z in Hhi
      end;
      destruct IH as [IH | IH]; lra.
  - split; [exact IH0 |].
    destruct IH as [IH | IH]; [left; exact IH | right].
    destruct i as [| [| [| [| i]]]]; cbn [wait_budget] in *; lra.
Qed.

Lemma total_wait_app a b :
  (total_wait (a ++ b) == total_wait a + total_wait b)%Q.
Proof.
  induction a as [| ev a IH]; cbn [app total_wait]; [ring |].
  destruct ev; rewrite ?IH; ring.
Qed.

(** [k] retryable statuses in a row and then a success: [k] waits, [k+1]
    requests, and the text is returned. *)
Lemma retry_loop_backoff_run k : forall remaining i w v,
  i + remaining = MAX_RETRIES ->
  k < remaining ->
  (forall j, j < k ->
     http_transient (endpoint env (w_fetches w + j)) = true) ->
  success_text (endpoint env (w_fetches w + k)) = Some v ->
  exists w',
    retry_loop env payload remaining i w = (Ok (Returned v), w') /\
    w_fetches w' = w_fetches w + S k /\
    w_draws w' = w_draws w + k /\
    (total_wait (w_trace w') ==
     total_wait (w_trace w) + backoff_sum env i (w_draws w) k)%Q.
Proof.
  induction k as [| k IH]; intros remaining i w v Hi Hk Hbusy Hv;
    (destruct remaining as [| r]; [lia |]); rewrite retry_loop_step.
  - pose proof (iteration_by_outcome i w) as Hit.
    rewrite Nat.add_0_r in Hv. rewrite Hv in Hit. destruct Hit as [-> _].
    eexists. split; [reflexivity |]. cbn [fetched w_fetches w_draws w_trace].
    repeat split; try lia.
    rewrite total_wait_app. cbn. ring.
  - assert (http_transient (endpoint env (w_fetches w)) = true) as H0.
    { rewrite <- (Hbusy 0) by lia. now rewrite Nat.add_0_r. }
    destruct (endpoint env (w_fetches w)) as [e | resp] eqn:Hr;
      [discriminate H0 |].
    rewrite (iteration_backoff env payload i w resp Hr H0) by lia.
    destruct (IH r (S i) (backed_off env payload i w) v)
      as (w' & Hrun & Hf & Hd & Hw); try lia.
    + intros j Hj. cbn [backed_off w_fetches].
      rewrite <- (Hbusy (S j)) by lia. f_equal. f_equal. lia.
    + cbn [backed_off w_fetches]. rewrite <- Hv. f_equal. f_equal. lia.
    + cbn [backed_off w_fetches w_draws w_trace] in Hf, Hd, Hw.
      exists w'. split; [exact Hrun |]. repeat split; try lia.
      rewrite Hw, total_wait_app. cbn. ring.
Qed.

End ClientMore.

(** X1.  Whenever [callGeminiAPI] returns, from whatever world, the value
    is truthy and is the generated text of the last request the call
    made. *)
Theorem returned_text_is_last_reply env payload w v w' :
  callGeminiAPI env payload w = (Ok v, w') ->
  truthy v = true /\
  exists k, w_fetches w' = S k /\ success_text (endpoint env k) = Some v.
Proof.
  unfold callGeminiAPI, bind. intros H.
  destruct (retry_loop env payload MAX_RETRIES 0 w) as [[[v0 |] | e] w0]
    eqn:Hrun; try discriminate H.
  injection H as <- <-.
  destruct (retry_loop_returned env payload MAX_RETRIES 0 w v0 w0 eq_refl
              Hrun) as (k & Hf & Hs & Ht).
  eauto.
Qed.

(** A turn that is rate limited once: the reply of the second request. *)
Lemma returned_text_is_last_reply_witness :
  truthy (VStr "hi") = true /\
  exists k,
    w_fetches (snd (callGeminiAPI (simulated busy_once) sample_payload
                      (start []))) = S k /\
    success_text (endpoint (simulated busy_once) k) = Some (VStr "hi").
Proof.
  apply (returned_text_is_last_reply (simulated busy_once) sample_payload
           (start []) (VStr "hi")).
  reflexivity.
Defined.

(** X2.  When the first [k] attempts each receive a retryable status (429
    or 5xx) and attempt [k], one of the five, succeeds, the call returns
    that attempt's text after exactly [k+1] requests and [k] waits, and the
    time waited is the sum of the [k] backoff delays
    [2^j * 1000 + random_j * 500] for [j] below [k]. *)
Theorem backoff_then_success env payload store k v :
  k < MAX_RETRIES ->
  (forall j, j < k -> http_transient (endpoint env j) = true) ->
  success_text (endpoint env k) = Some v ->
  exists w',
    callGeminiAPI env payload (start store) = (Ok v, w') /\
    w_fetches w' = S k /\
    w_draws w' = k /\
    (total_wait (w_trace w') == backoff_sum env 0 0 k)%Q.
Proof.
  intros Hk Hbusy Hv.
  destruct (retry_loop_backoff_run env payload k MAX_RETRIES 0
              (start store) v)
    as (w' & Hrun & Hf & Hd & Hw); auto.
  exists w'. unfold callGeminiAPI, bind. rewrite Hrun.
  cbn [start w_fetches w_draws w_trace total_wait] in Hf, Hd, Hw.
  repeat split; auto. rewrite Hw. ring.
Qed.

(** Four times 429 and then 200: five requests, four waits. *)
Lemma backoff_then_success_witness :
  exists w',
    callGeminiAPI
      (simulated (fun k => if k <? 4 then Responded rate_limited
                           else Responded good_response))
      sample_payload (start []) = (Ok (VStr "hi"), w') /\
    w_fetches w' = 5 /\
    w_draws w' = 4 /\
    (total_wait (w_trace w') ==
     backoff_sum
       (simulated (fun k => if k <? 4 then Responded rate_limited
                            else Responded good_response)) 0 0 4)%Q.
Proof.
  apply (backoff_then_success
           (simulated (fun k => if k <? 4 then Responded rate_limited
                                else Responded good_response))
           sample_payload [] 4 (VStr "hi")).
  - unfold MAX_RETRIES. lia.
  - intros j Hj. do 4 (destruct j as [| j]; [reflexivity |]). lia.
  - reflexivity.
Defined.

Lemma transient_no_success o : transient o = true -> success_text o = None.
Proof.
  destruct o as [e | r]; [reflexivity |]. cbn. now intros ->.
Qed.

(** X3.  When the attempts before attempt [k] all end in a transient
    outcome, a rejected [fetch] or a retryable status, and attempt [k], one
    of the five, succeeds, the call returns that attempt's text after
    exactly [k+1] requests. *)
Theorem success_after_transient_failures env payload store k v :
  k < MAX_RETRIES ->
  (forall j, j < k -> transient (endpoint env j) = true) ->
  success_text (endpoint env k) = Some v ->
  exists w',
    callGeminiAPI env payload (start store) = (Ok v, w') /\
    w_fetches w' = S k.
Proof.
  intros Hk Htransient Hv.
  destruct (retry_loop_first_success env payload k MAX_RETRIES 0
              (start store) v)
    as (w' & Hrun & Hf); auto.
  - intros j Hj. apply transient_no_success, Htransient, Hj.
  - exists w'. unfold callGeminiAPI, bind. rewrite Hrun. auto.
Qed.

(** A rejected [fetch] and then an answer. *)
Lemma success_after_transient_failures_witness :
  exists w',
    callGeminiAPI
      (simulated (first_then (NetworkFailure fetch_failed)
                    (Responded good_response)))
      sample_payload (start []) = (Ok (VStr "hi"), w') /\
    w_fetches w' = 2.
Proof.
  apply (success_after_transient_failures
           (simulated (first_then (NetworkFailure fetch_failed)
                         (Responded good_response)))
           sample_payload [] 1 (VStr "hi")).
  - unfold MAX_RETRIES. lia.
  - intros j Hj. destruct j; [reflexivity | lia].
  - reflexivity.
Defined.

(** X4.  As long as [Math.random] stays in [0, 1), the waits of one call
    add up to at most 17 seconds: four waits of at most 1500, 2500, 4500
    and 8500 ms. *)
Theorem total_backoff_bounded env payload store :
  (forall n, 0 <= random env n < 1)%Q ->
  (0 <= total_wait (w_trace (snd (callGeminiAPI env payload (start store))))
   <= 17000)%Q.
Proof.
  intros Hrandom. rewrite callGeminiAPI_world.
  destruct (retry_loop_spec env payload MAX_RETRIES 0 (start store))
    as (o & w' & tail & Hrun & Htr & Hs & _); [reflexivity | reflexivity |].
  rewrite Hrun. cbn [snd]. rewrite Htr. cbn [start w_trace app].
  destruct (schedule_wait_budget env payload 0 _ tail Hrandom Hs)
    as [H0 [H | H]]; cbn [wait_budget] in *; split; lra.
Qed.

(** An endpoint that is always rate limited. *)
Lemma total_backoff_bounded_witness :
  (0 <= total_wait
          (w_trace (snd (callGeminiAPI
                           (simulated (fun _ => Responded rate_limited))
                           sample_payload (start []))))
   <= 17000)%Q.
Proof.
  apply (total_backoff_bounded (simulated (fun _ => Responded rate_limited))
           sample_payload []).
  intros n. split; [discriminate | reflexivity].
Defined.

(** X5.  The completion client only issues requests and awaits timers,
    and every request carries the payload it was called with: it neither
    reads nor writes the message store and sends no response. *)
Theorem completion_client_confined env payload w :
  exists tail,
    w_trace (snd (callGeminiAPI env payload w)) = (w_trace w ++ tail)%list /\
    forallb client_event tail = true /\
    (forall k p, In (EvFetch k p) tail -> p = payload) /\
    w_store (snd (callGeminiAPI env payload w)) = w_store w /\
    w_creates (snd (callGeminiAPI env payload w)) = w_creates w.
Proof.
  destruct (callGeminiAPI_frame env payload w) as [Hst Hcr].
  rewrite callGeminiAPI_world in *.
  destruct (retry_loop_events env payload MAX_RETRIES 0 w)
    as (tail & Htr & Hc & Hp).
  exists tail. auto.
Qed.

(** X6.  Each backoff wait is longer than every wait of an earlier
    attempt, whatever the two jitters, as long as [Math.random] stays in
    [0, 1). *)
Theorem backoff_delay_increasing i j rnd rnd' :
  (0 <= rnd < 1)%Q ->
  (0 <= rnd' < 1)%Q ->
  i < j ->
  (backoff_delay i rnd < backoff_delay j rnd')%Q.
Proof.
  intros Hr Hr' Hij.
  pose proof (backoff_delay_bounds i rnd Hr) as [_ Hhi].
  pose proof (backoff_delay_bounds j rnd' Hr') as [Hlo _].
  assert (inject_Z (2 ^ Z.of_nat i * 1000) + 500
          <= inject_Z (2 ^ Z.of_nat j * 1000))%Q as Hstep.
  { change 500%Q with (inject_Z 500). rewrite <- inject_Z_plus, <- Zle_Qle.
    assert (2 * 2 ^ Z.of_nat i <= 2 ^ Z.of_nat j)%Z.
    { rewrite <- Z.pow_succ_r by lia.
      apply Z.pow_le_mono_r; lia. }
    pose proof (Z.pow_pos_nonneg 2 (Z.of_nat i)). lia. }
  lra.
Qed.

(** One second and a full jitter stay below two seconds and none. *)
Lemma backoff_delay_increasing_witness :
  (backoff_delay 0 (499 # 500) < backoff_delay 1 0)%Q.
Proof.
  apply (backoff_delay_increasing 0 1 (499 # 500) 0).
  - split; [discriminate | reflexivity].
  - split; [discriminate | reflexivity].
  - lia.
Defined.

(** ** The turn handler *)

Section HandlerMore.

Variable env : environment.

(** Closes an equation between two traces or two stores that differ by
    the nesting of their appends. *)
Ltac exit_shape :=
  rewrite <- ?app_assoc, ?app_nil_r; cbn [app]; rewrite <- ?app_assoc;
  reflexivity.

Lemma client_events_no_response tail :
  forallb client_event tail = true -> existsb is_response tail = false.
Proof.
  induction tail as [| ev tail IH]; cbn; [reflexivity |].
  intros H. apply andb_prop in H as [Hev Htail].
  rewrite (IH Htail). destruct ev; try discriminate Hev; reflexivity.
Qed.

(** What a completion call leaves behind, however it ends. *)
Lemma callGeminiAPI_effects payload w :
  exists o w1 tail,
    callGeminiAPI env payload w = (o, w1) /\
    w_trace w1 = (w_trace w ++ tail)%list /\
    forallb client_event tail = true /\
    w_store w1 = w_store w /\
    w_creates w1 = w_creates w /\
    (forall v, o = Ok v -> truthy v = true).
Proof.
  destruct (callGeminiAPI_frame env payload w) as [Hst Hcr].
  destruct (retry_loop_events env payload MAX_RETRIES 0 w)
    as (tail & Htr & Hc & _).
  rewrite <- callGeminiAPI_world in Htr.
  destruct (callGeminiAPI env payload w) as [o w1] eqn:Hcall.
  exists o, w1, tail. cbn [snd] in *. repeat split; auto.
  intros v ->. unfold callGeminiAPI, bind in Hcall.
  destruct (retry_loop env payload MAX_RETRIES 0 w) as [[[v0 |] | e] w0]
    eqn:Hrun; try discriminate Hcall.
  injection Hcall as <- <-.
  destruct (retry_loop_returned env payload MAX_RETRIES 0 w v0 w0 eq_refl
              Hrun) as (k & _ & _ & Ht).
  exact Ht.
Qed.

(** The ways out of the [try]/[catch] of the handler: one response, 200
    after both turns were persisted, 500 after none or only the user
    turn. *)
Lemma sendPromt_try_exits userId content w :
  exists w' before code body added,
    try_catch (sendPromt_try env userId content) sendPromt_catch w =
      (Ok tt, w') /\
    w_trace w' = (w_trace w ++ before ++ [EvRespond code body])%list /\
    existsb is_response before = false /\
    w_store w' = (w_store w ++ added)%list /\
    w_creates w < w_creates w' /\
    ((code = 500%Z /\
      (added = [] \/ added = [mkMessage userId user content])) \/
     (code = 200%Z /\
      exists aiContent,
        added = [mkMessage userId user content;
                 mkMessage userId assistant aiContent] /\
        body = VObj [("reply", aiContent)] /\
        truthy aiContent = true)).
Proof.
  unfold try_catch, sendPromt_try, bind.
  unfold Promt_create at 1.
  destruct (database env (w_creates w)) as [e |] eqn:Hc0.
  - (* the first create is rejected *)
    eexists.
    exists [EvCreate (mkMessage userId user content); EvConsoleError e].
    do 2 eexists. exists [].
    unfold sendPromt_catch, bind, console_error, respond, log.
    split; [reflexivity |].
    cbn [w_fetches w_draws w_creates w_store w_trace].
    repeat split; try exit_shape; try lia. left. auto.
  - destruct (callGeminiAPI_effects (make_payload content)
                (user_stored userId content w))
      as (o & w1 & tail & Hcall & Htr & Hev & Hst & Hcr & Htruthy).
    fold (user_stored userId content w). rewrite Hcall.
    cbn [user_stored w_trace w_store w_creates] in Htr, Hst, Hcr.
    apply client_events_no_response in Hev.
    destruct o as [aiContent | e].
    + unfold Promt_create. rewrite Hcr.
      destruct (database env (S (w_creates w))) as [e |] eqn:Hc1.
      * (* the second create is rejected *)
        eexists.
        exists (EvCreate (mkMessage userId user content) :: tail
                ++ [EvCreate (mkMessage userId assistant aiContent);
                    EvConsoleError e])%list.
        do 2 eexists. exists [mkMessage userId user content].
        unfold sendPromt_catch, bind, console_error, respond, log.
        split; [reflexivity |].
        cbn [w_fetches w_draws w_creates w_store w_trace].
        rewrite Htr, Hst.
        repeat split; try exit_shape; try lia.
        -- cbn [existsb is_response]. rewrite existsb_app, Hev. reflexivity.
        -- left. auto.
      * (* both turns persisted *)
        eexists.
        exists (EvCreate (mkMessage userId user content) :: tail
                ++ [EvCreate (mkMessage userId assistant aiContent)])%list.
        do 2 eexists.
        exists [mkMessage userId user content;
                mkMessage userId assistant aiContent].
        unfold respond, log.
        split; [reflexivity |].
        cbn [w_fetches w_draws w_creates w_store w_trace].
        rewrite Htr, Hst.
        repeat split; try exit_shape; try lia.
        -- cbn [existsb is_response]. rewrite existsb_app, Hev. reflexivity.
        -- right. split; [reflexivity |]. exists aiContent. auto.
    + (* the completion throws *)
      eexists.
      exists (EvCreate (mkMessage userId user content) :: tail
              ++ [EvConsoleError e])%list.
      do 2 eexists. exists [mkMessage userId user content].
      unfold sendPromt_catch, bind, console_error, respond, log.
      split; [reflexivity |].
      cbn [w_fetches w_draws w_creates w_store w_trace].
      rewrite Htr, Hst, Hcr.
      repeat split; try exit_shape; try lia.
      * cbn [existsb is_response]. rewrite existsb_app, Hev. reflexivity.
      * left. auto.
Qed.

End HandlerMore.

(** Content that fails validation, falsy or blank: a 400 and nothing
    else. *)
Lemma sendPromt_invalid env req content w :
  destructure_content (req_body req) = Ok content ->
  truthy content = false \/
  (exists s, content = VStr s /\ (trim s =? "")%string = true) ->
  sendPromt env req w =
    (Ok tt,
     mkWorld (w_fetches w) (w_draws w) (w_creates w) (w_store w)
       (w_trace w
        ++ [EvRespond 400 (VObj [("errors", VStr validation_message)])])).
Proof.
  intros Hd Hbad. unfold sendPromt, bind, lift at 1. rewrite Hd.
  destruct Hbad as [Hf | (s & -> & Ht)].
  - rewrite Hf. reflexivity.
  - unfold truthy. destruct (s =? "")%string; cbv beta iota;
      [reflexivity |].
    unfold negb, lift, call_trim, ret. rewrite Ht. reflexivity.
Qed.

(** Truthy content that is no string: the [TypeError] of [trim]. *)
Lemma sendPromt_not_a_string env req content w :
  destructure_content (req_body req) = Ok content ->
  truthy content = true ->
  (forall s, content <> VStr s) ->
  exists e, sendPromt env req w = (Thrown e, w) /\ e_name e = "TypeError".
Proof.
  intros Hd Ht Hns. exists (TypeError "content.trim is not a function").
  split; [| reflexivity].
  unfold sendPromt, bind, lift at 1. rewrite Hd, Ht. cbv beta iota.
  destruct content; try reflexivity; try discriminate Ht.
  now destruct (Hns s).
Qed.

(** X7.  Every run of [sendPromt] ends in one of two ways.  Either it
    throws a [TypeError] before anything has happened (a missing body, or
    content that is truthy and no string).  Or it sends exactly one
    response, as the last thing it does, the store having only grown: 400
    with nothing persisted, 500 with nothing or only the user turn
    persisted, or 200 with the user turn and then the assistant turn
    persisted, [reply] being the assistant Message's content, which is
    truthy. *)
Theorem sendPromt_exits env req w :
  (exists e, sendPromt env req w = (Thrown e, w) /\ e_name e = "TypeError")
  \/
  (exists w' before code body added,
     sendPromt env req w = (Ok tt, w') /\
     w_trace w' = (w_trace w ++ before ++ [EvRespond code body])%list /\
     existsb is_response before = false /\
     w_store w' = (w_store w ++ added)%list /\
     ((code = 400%Z /\ added = []) \/
      (code = 500%Z /\
       exists content,
         added = [] \/ added = [mkMessage (req_userId req) user content]) \/
      (code = 200%Z /\
       exists content aiContent,
         added = [mkMessage (req_userId req) user content;
                  mkMessage (req_userId req) assistant aiContent] /\
         body = VObj [("reply", aiContent)] /\
         truthy aiContent = true))).
Proof.
  destruct (destructure_content (req_body req)) as [content | e] eqn:Hd.
  - destruct (truthy content) eqn:Htruthy.
    + destruct content as [| | b | n | s | items | fields];
        try discriminate Htruthy;
        try (left;
             apply (sendPromt_not_a_string env req _ w Hd Htruthy);
             intros s; discriminate).
      right. destruct (trim s =? "")%string eqn:Ht.
      * eexists. exists []. do 2 eexists. exists [].
        split; [apply (sendPromt_invalid env req (VStr s) w Hd); eauto |].
        cbn. rewrite app_nil_r.
        repeat (split; [reflexivity |]). left. split; reflexivity.
      * rewrite (sendPromt_valid env req s w Hd Ht).
        destruct (sendPromt_try_exits env (req_userId req) (VStr s) w)
          as (w' & before & code & body & added & Hrun & Htr & Hnr & Hst
              & _ & Hcode).
        exists w', before, code, body, added. repeat split; auto.
        right. destruct Hcode as [[-> Hadded] | [-> Hadded]].
        -- left. split; [reflexivity |]. exists (VStr s). exact Hadded.
        -- right. split; [reflexivity |]. exists (VStr s). exact Hadded.
    + right. eexists. exists []. do 2 eexists. exists [].
      split; [apply (sendPromt_invalid env req content w Hd); auto |].
      cbn. rewrite app_nil_r.
      repeat (split; [reflexivity |]). left. split; reflexivity.
  - left. exists e. split.
    + unfold sendPromt, bind, lift at 1. rewrite Hd. reflexivity.
    + unfold destructure_content in Hd.
      destruct (is_nullish (req_body req)); [| discriminate Hd].
      injection Hd as <-. reflexivity.
Qed.

(** X8.  For a request with a body, the handler calls the message store if
    and only if the content is a string that is not blank after trimming;
    in every other case the create counter stays where it was. *)
Theorem store_reached_iff_valid env req content w :
  destructure_content (req_body req) = Ok content ->
  w_creates w < w_creates (snd (sendPromt env req w)) <->
  exists s, content = VStr s /\ (trim s =? "")%string = false.
Proof.
  intros Hd. split.
  - intros Hlt.
    destruct (truthy content) eqn:Htruthy.
    + destruct content as [| | b | n | s | items | fields];
        try discriminate Htruthy;
        try (exfalso;
             destruct (sendPromt_not_a_string env req _ w Hd Htruthy)
               as (e & Hrun & _); [intros s; discriminate |];
             rewrite Hrun in Hlt; cbn in Hlt; lia).
      destruct (trim s =? "")%string eqn:Ht; [| eauto].
      exfalso.
      rewrite (sendPromt_invalid env req (VStr s) w Hd) in Hlt by eauto.
      cbn in Hlt. lia.
    + exfalso.
      rewrite (sendPromt_invalid env req content w Hd) in Hlt by auto.
      cbn in Hlt. lia.
  - intros (s & -> & Ht).
    rewrite (sendPromt_valid env req s w Hd Ht).
    destruct (sendPromt_try_exits env (req_userId req) (VStr s) w)
      as (w' & before & code & body & added & Hrun & _ & _ & _ & Hcr & _).
    rewrite Hrun. exact Hcr.
Qed.

(** Both directions at work: a plain turn reaches the store. *)
Lemma store_reached_iff_valid_witness :
  w_creates (start [])
  < w_creates (snd (sendPromt (simulated busy_once) hello (start []))) <->
  exists s, VStr "hello" = VStr s /\ (trim s =? "")%string = false.
Proof.
  apply (store_reached_iff_valid (simulated busy_once) hello (VStr "hello")
           (start [])).
  reflexivity.
Defined.

(** X9.  When the first create is rejected the handler answers 500 without
    having sent any request to the endpoint, and the store is as it was. *)
Theorem first_create_rejected env req s w e :
  destructure_content (req_body req) = Ok (VStr s) ->
  (trim s =? "")%string = false ->
  database env (w_creates w) = Some e ->
  sendPromt env req w =
    (Ok tt,
     mkWorld (w_fetches w) (w_draws w) (S (w_creates w)) (w_store w)
       (w_trace w
        ++ [EvCreate (mkMessage (req_userId req) user (VStr s));
            EvConsoleError e;
            EvRespond 500 (VObj [("error", VStr (errorMessage e))])])).
Proof.
  intros Hd Ht Hc0.
  rewrite (sendPromt_valid env req s w Hd Ht).
  unfold try_catch, sendPromt_try, bind, Promt_create. rewrite Hc0.
  unfold sendPromt_catch, bind, console_error, respond, log.
  cbn [w_fetches w_draws w_creates w_store w_trace].
  rewrite <- !app_assoc. reflexivity.
Qed.

(** A store that rejects the first create. *)
Lemma first_create_rejected_witness :
  sendPromt (store_fails_at 0 busy_once) hello (start []) =
    (Ok tt,
     mkWorld 0 0 1 []
       [EvCreate (mkMessage (VStr "user-1") user (VStr "hello"));
        EvConsoleError storage_down;
        EvRespond 500 (VObj [("error", VStr generic_message)])]).
Proof.
  apply (first_create_rejected (store_fails_at 0 busy_once) hello "hello"
           (start []) storage_down).
  - reflexivity.
  - reflexivity.
  - reflexivity.
Defined.

(** X10.  When the user turn is persisted and the completion throws, the
    handler makes no second create: it logs the error and answers 500, with
    the error's message if it includes "Gemini API" and the generic one
    otherwise, and the store holds the user Message without a reply. *)
Theorem completion_failure env req s w e w1 :
  destructure_content (req_body req) = Ok (VStr s) ->
  (trim s =? "")%string = false ->
  database env (w_creates w) = None ->
  callGeminiAPI env (make_payload (VStr s))
    (user_stored (req_userId req) (VStr s) w) = (Thrown e, w1) ->
  sendPromt env req w =
    (Ok tt,
     mkWorld (w_fetches w1) (w_draws w1) (S (w_creates w))
       (w_store w ++ [mkMessage (req_userId req) user (VStr s)])
       (w_trace w1
        ++ [EvConsoleError e;
            EvRespond 500 (VObj [("error", VStr (errorMessage e))])])).
Proof.
  intros Hd Ht Hc0 Hcall.
  rewrite (sendPromt_valid env req s w Hd Ht).
  unfold try_catch, sendPromt_try, bind.
  rewrite (first_create_ok env _ _ w Hc0), Hcall.
  destruct (callGeminiAPI_frame env (make_payload (VStr s))
              (user_stored (req_userId req) (VStr s) w)) as [Hst Hcr].
  rewrite Hcall in Hst, Hcr.
  cbn [snd user_stored w_store w_creates] in Hst, Hcr.
  unfold sendPromt_catch, bind, console_error, respond, log.
  cbn [w_fetches w_draws w_creates w_store w_trace].
  rewrite Hst, Hcr, <- !app_assoc. reflexivity.
Qed.

(** An endpoint that never answers: the network error gets the generic
    message. *)
Lemma completion_failure_witness :
  sendPromt (simulated (fun _ => NetworkFailure fetch_failed)) hello
    (start []) =
    (Ok tt,
     mkWorld 5 0 1
       [mkMessage (VStr "user-1") user (VStr "hello")]
       (w_trace (snd (callGeminiAPI
                        (simulated (fun _ => NetworkFailure fetch_failed))
                        sample_payload
                        (user_stored (VStr "user-1") (VStr "hello")
                           (start []))))
        ++ [EvConsoleError fetch_failed;
            EvRespond 500 (VObj [("error", VStr generic_message)])])).
Proof.
  apply (completion_failure
           (simulated (fun _ => NetworkFailure fetch_failed)) hello "hello"
           (start []) fetch_failed
           (snd (callGeminiAPI
                   (simulated (fun _ => NetworkFailure fetch_failed))
                   sample_payload
                   (user_stored (VStr "user-1") (VStr "hello") (start []))))).
  - reflexivity.
  - reflexivity.
  - reflexivity.
  - reflexivity.
Defined.

(** X11.  Every error the completion client builds itself (retries
    exhausted, client error, content missing, and the fallback) passes the
    handler's test for "Gemini API": whatever the status and the body, the
    handler surfaces its message unchanged. *)
Theorem client_errors_surfaced (s : Z) (errorText : string)
  (errorBody : value) :
  errorMessage (Error (retries_exhausted_message s errorText)) =
    retries_exhausted_message s errorText /\
  errorMessage (Error (client_error_message s errorBody)) =
    client_error_message s errorBody /\
  errorMessage (Error content_missing_message) = content_missing_message /\
  errorMessage (Error fallback_message) = fallback_message.
Proof. repeat split; reflexivity. Qed.

(** Retries exhausted, from any world that has sent no request yet. *)
Lemma callGeminiAPI_exhausted_from env payload w r errorText :
  w_fetches w = 0 ->
  (forall k, k < MAX_RETRIES -> transient (endpoint env k) = true) ->
  endpoint env (MAX_RETRIES - 1) = Responded r ->
  body_text r = Ok errorText ->
  exists w',
    callGeminiAPI env payload w =
      (Thrown (Error (retries_exhausted_message (status r) errorText)), w') /\
    w_fetches w' = MAX_RETRIES.
Proof.
  intros F0 Hall Hlast Htext.
  assert (retryable (status r) = true) as Hs.
  { specialize (Hall (MAX_RETRIES - 1)). rewrite Hlast in Hall.
    apply Hall. unfold MAX_RETRIES. lia. }
  assert (forall i w0, i < MAX_RETRIES - 1 -> w_fetches w0 = i ->
            exists w1, iteration env payload i w0 = (Ok Continue, w1) /\
                       w_fetches w1 = S i) as Hstep.
  { intros i w0 Hi Hf.
    destruct (iteration_transient env payload i w0) as (w1 & H1 & F1);
      [rewrite Hf; apply Hall; lia | exact Hi |].
    exists w1. split; [exact H1 | congruence]. }
  unfold callGeminiAPI, bind, MAX_RETRIES at 1.
  destruct (Hstep 0 w) as (w1 & H1 & F1); [index_bound | exact F0 |].
  destruct (Hstep 1 w1) as (w2 & H2 & F2); [index_bound | exact F1 |].
  destruct (Hstep 2 w2) as (w3 & H3 & F3); [index_bound | exact F2 |].
  destruct (Hstep 3 w3) as (w4 & H4 & F4); [index_bound | exact F3 |].
  change (MAX_RETRIES - 1) with 4 in Hlast. rewrite <- F4 in Hlast.
  pose proof (iteration_exhausted env payload w4 r errorText Hlast Hs Htext)
    as H5.
  change (MAX_RETRIES - 1) with 4 in H5.
  rewrite retry_loop_step, H1, retry_loop_step, H2, retry_loop_step, H3,
    retry_loop_step, H4, retry_loop_step, H5.
  eexists. split; [reflexivity |]. cbn. rewrite F4. reflexivity.
Qed.

(** X12.  A turn whose completion runs out of retries: when the content is
    valid, the user turn is persisted, every attempt is transient and the
    fifth is a retryable status with a readable body, the handler answers
    500 and its [error] field is the retries-exhausted message naming that
    last status and body; five requests were sent and the store holds the
    user Message without a reply. *)
Theorem exhausted_turn_response env req s store r errorText :
  destructure_content (req_body req) = Ok (VStr s) ->
  (trim s =? "")%string = false ->
  database env 0 = None ->
  (forall k, k < MAX_RETRIES -> transient (endpoint env k) = true) ->
  endpoint env (MAX_RETRIES - 1) = Responded r ->
  body_text r = Ok errorText ->
  exists w' before,
    sendPromt env req (start store) = (Ok tt, w') /\
    w_fetches w' = MAX_RETRIES /\
    w_store w' = (store ++ [mkMessage (req_userId req) user (VStr s)])%list /\
    w_trace w' =
      (before
       ++ [EvRespond 500
             (VObj [("error",
                     VStr (retries_exhausted_message (status r)
                             errorText))])])%list.
Proof.
  intros Hd Ht Hc0 Hall Hlast Htext.
  rewrite (sendPromt_valid env req s (start store) Hd Ht).
  unfold try_catch, sendPromt_try, bind.
  rewrite (first_create_ok env _ _ (start store) Hc0).
  destruct (callGeminiAPI_exhausted_from env (make_payload (VStr s))
              (user_stored (req_userId req) (VStr s) (start store))
              r errorText eq_refl Hall Hlast Htext) as (w1 & Hcall & Hf).
  destruct (callGeminiAPI_frame env (make_payload (VStr s))
              (user_stored (req_userId req) (VStr s) (start store)))
    as [Hst _].
  rewrite Hcall in Hst |- *. cbn [snd user_stored start w_store] in Hst.
  unfold sendPromt_catch, bind, console_error, respond, log.
  cbn [w_fetches w_draws w_creates w_store w_trace].
  change (errorMessage
            (Error (retries_exhausted_message (status r) errorText)))
    with (retries_exhausted_message (status r) errorText).
  eexists. eexists. split; [reflexivity |].
  cbn [w_fetches w_store w_trace]. repeat split; auto.
Qed.

(** A turn against an endpoint that is always rate limited. *)
Lemma exhausted_turn_response_witness :
  exists w' before,
    sendPromt (simulated (fun _ => Responded rate_limited)) hello (start []) =
      (Ok tt, w') /\
    w_fetches w' = MAX_RETRIES /\
    w_store w' = [mkMessage (VStr "user-1") user (VStr "hello")] /\
    w_trace w' =
      (before
       ++ [EvRespond 500
             (VObj [("error",
                     VStr (retries_exhausted_message 429
                             (stringify
                                (VObj [("error",
                                        VObj [("code", VNum 429);
                                              ("status",
                                               VStr "RESOURCE_EXHAUSTED")])
                                      ]))))])])%list.
Proof.
  apply (exhausted_turn_response (simulated (fun _ => Responded rate_limited))
           hello "hello" [] rate_limited).
  - reflexivity.
  - reflexivity.
  - reflexivity.
  - intros k _. reflexivity.
  - reflexivity.
  - reflexivity.
Defined.
